(** * observable-store: the DispatchableStore class of src/index.js

    A shallow embedding of the store (constructor, getState, register,
    dispatch, chain, unsubscribe, subscribe and the private [setState] step)
    over a small model of JavaScript values, followed by the properties of
    the store that its specification states.

    Modelling choices.
    - JavaScript values are [value]; records and arrays live in a [heap] and
      are handled by reference, so that identity ([!==]), sharing and
      mutation are visible.
    - An object is the finite map of its own enumerable properties. Where
      the store reads a property under a key that the caller chooses
      ([this.reducer[act.type]], [this.chains[from]]), what a record inherits
      from [Object.prototype] is part of the model. The libraries behind
      arrays, wrapper objects and property accessors are not: a computation
      that reaches them ends there, with [Unmodelled].
    - Functions supplied by the caller (reducers, state mappers) are code
      pointers interpreted by a [Host]; they may read the heap and allocate.
      They return normally and do not call back into the store.
    - Calls that leave the store ([console.warn], [emit('change', ...)] and
      the subscribers' callbacks) are recorded, in order, in a trace; what a
      callback does with its arguments is not part of the model.
    - An exception is an outcome of the computation: the effects that took
      place before it are kept.
    - [dispatch] is recursive through the chain registry without any bound;
      the embedding takes the nesting depth it may use as fuel. *)

From stdpp Require Import gmap strings list pretty sorting.

Open Scope string_scope.
Open Scope Z_scope.

(** ** Values *)

Abbreviation loc := positive.
Abbreviation fn_id := nat.

(** Numbers: the store only tests numbers for their type, compares them with
    [!==], uses them as array indices and prints them in a property key, so
    integers and [NaN] are kept. *)
Inductive number :=
  | NaN
  | Int (z : Z).

Inductive value :=
  | VUndefined
  | VNull
  | VBool (b : bool)
  | VNumber (n : number)
  | VString (s : string)
  | VFunction (f : fn_id)
  | VRef (l : loc).

Inductive object :=
  | OObject (props : gmap string value)
  | OArray (elems : list value).

Abbreviation heap := (gmap loc object).

#[global] Instance number_eq_dec : EqDecision number.
Proof. solve_decision. Defined.

#[global] Instance value_eq_dec : EqDecision value.
Proof. solve_decision. Defined.

#[global] Instance value_inhabited : Inhabited value := populate VUndefined.

(** [typeof v] *)
Definition typeof (v : value) : string :=
  match v with
  | VUndefined => "undefined"
  | VNull => "object"
  | VBool _ => "boolean"
  | VNumber _ => "number"
  | VString _ => "string"
  | VFunction _ => "function"
  | VRef _ => "object"
  end.

(** [a === b]: identity on references, value equality on primitives, and
    [NaN] is different from itself. *)
Definition strict_equal (a b : value) : bool :=
  match a, b with
  | VNumber NaN, _ => false
  | _, VNumber NaN => false
  | _, _ => bool_decide (a = b)
  end.

(** Lines 5-7 of index.js. *)
Definition isFunc (maybeFunc : value) : bool := String.eqb (typeof maybeFunc) "function".
Definition isObj (maybeObj : value) : bool := String.eqb (typeof maybeObj) "object".
Definition isNumber (maybeNum : value) : bool := String.eqb (typeof maybeNum) "number".

(** ** Heap objects *)

(** The properties ["0"], ["1"], ... of an array or of a string. *)
Definition index_props (vs : list value) : gmap string value :=
  list_to_map (imap (λ i v, (pretty i, v)) vs).

Definition string_chars (s : string) : list value :=
  (λ c, VString (String c EmptyString)) <$> String.list_ascii_of_string s.

(** The own enumerable properties of a value, as [Object.assign] reads them
    from a source: none for [undefined], [null], booleans, numbers and
    functions. *)
Definition own_props (h : heap) (v : value) : gmap string value :=
  match v with
  | VRef l =>
      match h !! l with
      | Some (OObject ps) => ps
      | Some (OArray vs) => index_props vs
      | None => ∅
      end
  | VString s => index_props (string_chars s)
  | _ => ∅
  end.

(** [Object.assign({}, s1, ..., sn)] computes these properties: the sources
    are copied from left to right and a later source overrides. *)
Definition object_assign (sources : list (gmap string value)) : gmap string value :=
  foldl (λ acc src, src ∪ acc) ∅ sources.

(** A new object is placed at a location the heap does not use. *)
Definition alloc (o : object) (h : heap) : loc * heap :=
  let l := fresh (dom h) in (l, <[l := o]> h).

(** [o[k] = v] on a record. *)
Definition set_property (h : heap) (l : loc) (k : string) (v : value) : heap :=
  match h !! l with
  | Some (OObject ps) => <[l := OObject (<[k := v]> ps)]> h
  | _ => h
  end.

(** [delete o[k]] on a record. *)
Definition delete_property (h : heap) (l : loc) (k : string) : heap :=
  match h !! l with
  | Some (OObject ps) => <[l := OObject (delete k ps)]> h
  | _ => h
  end.

(** ** Exceptions and outcomes *)

(** [Unmodelled] is not an exception of the program: it ends a computation
    that reaches a part of the engine's library that the model leaves out. *)
Inductive error :=
  | TypeError (msg : string)
  | Error (msg : string)
  | Unmodelled (what : string).

Inductive outcome (A : Type) :=
  | Return (a : A)
  | Throw (e : error)
  | Exhausted.
Arguments Return {A} a.
Arguments Throw {A} e.
Arguments Exhausted {A}.

(** [o[k]] for a key that the prototypes of [o] do not have, such as the
    keys [type] and [payload] that [dispatch] reads from its copy of the
    action: the own property, or [undefined]. Reading a property of
    [undefined] or [null] throws. *)
Definition get_property (h : heap) (o : value) (k : string) : outcome value :=
  match o with
  | VUndefined | VNull => Throw (TypeError "Cannot read properties of undefined or null")
  | VRef l =>
      match h !! l with
      | Some (OObject ps) => Return (default VUndefined (ps !! k))
      | Some (OArray vs) =>
          if String.eqb k "length" then Return (VNumber (Int (Z.of_nat (length vs))))
          else Return (default VUndefined (index_props vs !! k))
      | None => Return VUndefined
      end
  | VString s =>
      if String.eqb k "length" then Return (VNumber (Int (Z.of_nat (String.length s))))
      else Return (default VUndefined (index_props (string_chars s) !! k))
  | _ => Return VUndefined
  end.

(** ** What a record inherits *)

(** The function members of [Object.prototype]. *)
Inductive builtin :=
  | ObjectConstructor
  | ToString
  | ToLocaleString
  | ValueOf
  | HasOwnProperty
  | IsPrototypeOf
  | PropertyIsEnumerable
  | DefineGetter
  | DefineSetter
  | LookupGetter
  | LookupSetter.

(** What [o[k]] finds for any key: an own property, a function of
    [Object.prototype], the prototype itself (under [__proto__], an object
    and not a function), or nothing. *)
Inductive member :=
  | Own (v : value)
  | Inherited (b : builtin)
  | Prototype
  | Missing.

Definition prototype_members : list (string * member) :=
  [("constructor", Inherited ObjectConstructor);
   ("toString", Inherited ToString);
   ("toLocaleString", Inherited ToLocaleString);
   ("valueOf", Inherited ValueOf);
   ("hasOwnProperty", Inherited HasOwnProperty);
   ("isPrototypeOf", Inherited IsPrototypeOf);
   ("propertyIsEnumerable", Inherited PropertyIsEnumerable);
   ("__defineGetter__", Inherited DefineGetter);
   ("__defineSetter__", Inherited DefineSetter);
   ("__lookupGetter__", Inherited LookupGetter);
   ("__lookupSetter__", Inherited LookupSetter);
   ("__proto__", Prototype)].

(** The member of [Object.prototype] under a key. *)
Definition object_prototype (k : string) : member :=
  default Missing ((list_to_map prototype_members : gmap string member) !! k).

(** [o[k]] for any key: an own property comes first, then what the
    prototype has. The prototypes of arrays and of primitives are not
    modelled. *)
Definition lookup_member (h : heap) (o : value) (k : string) : outcome member :=
  match o with
  | VUndefined | VNull => Throw (TypeError "Cannot read properties of undefined or null")
  | VRef l =>
      match h !! l with
      | Some (OObject ps) => Return (from_option Own (object_prototype k) (ps !! k))
      | Some (OArray vs) =>
          if String.eqb k "length" then Return (Own (VNumber (Int (Z.of_nat (length vs)))))
          else from_option (λ v, Return (Own v)) (Throw (Unmodelled "Array.prototype"))
                 (index_props vs !! k)
      | None => Return Missing
      end
  | VString s =>
      if String.eqb k "length" then Return (Own (VNumber (Int (Z.of_nat (String.length s)))))
      else from_option (λ v, Return (Own v)) (Throw (Unmodelled "String.prototype"))
             (index_props (string_chars s) !! k)
  | _ => Throw (Unmodelled "the prototype of a primitive")
  end.

(** [isFunc] of what [o[k]] found. *)
Definition is_function (m : member) : bool :=
  match m with
  | Own v => isFunc v
  | Inherited _ => true
  | Prototype | Missing => false
  end.

(** [xs[index]] on an array with a number as index: the position read, when
    the number is an integer inside the array; [undefined] otherwise. *)
Definition array_index {A} (xs : list A) (index : value) : option nat :=
  match index with
  | VNumber (Int z) =>
      if bool_decide (0 ≤ z ∧ (Z.to_nat z < length xs)%nat) then Some (Z.to_nat z) else None
  | _ => None
  end.

(** ** The host: caller-supplied code *)

(** [call_function f h args] runs the function [f] on [args] in heap [h] and
    gives the heap it leaves and its result. [ref_to_string v] is the string
    the engine makes of an object, array or function used as a property
    key, and of a number that is not a safe integer. *)
Class Host := {
  call_function : fn_id → heap → list value → heap * value;
  ref_to_string : value → string;
}.

(** The safe integers, up to [Number.MAX_SAFE_INTEGER] in magnitude, are
    printed digit by digit. Beyond them a number is printed by the shortest
    decimal notation that reads back as the same number, with an exponent
    from 1e21 on: that string is left to the host. *)
Definition safe_integer (z : Z) : bool :=
  bool_decide (- 9007199254740991 ≤ z ≤ 9007199254740991).

(** The string of a value used as property key or inside a template. *)
Definition to_string `{Host} (v : value) : string :=
  match v with
  | VUndefined => "undefined"
  | VNull => "null"
  | VBool true => "true"
  | VBool false => "false"
  | VNumber NaN => "NaN"
  | VNumber (Int z) => if safe_integer z then pretty z else ref_to_string v
  | VString s => s
  | VFunction _ | VRef _ => ref_to_string v
  end.

(** ** The store *)

(** The closure that [subscribe] builds (lines 139-143) keeps the state
    mapper and the callback it was made with. *)
Record subscriber := Subscriber {
  stateMapper : value;
  callback : value;
}.

(** What leaves the store, in the order it happens. *)
Inductive event :=
  | Warn (msg : string)
  | Change (action prev next : value)
  | Callback (listener : nat) (cb action prevTarget target : value).

(** The heap, the fields of one store instance, the listeners that its event
    emitter holds for ['change'], and the trace. A listener is the closure
    stored at that position of [subscribers]: the two arrays share it. *)
Record world := World {
  memory : heap;
  state : value;
  reducer : value;
  chains : gmap string (list value);
  subscribers : list subscriber;
  listeners : list nat;
  trace : list event;
}.

Definition set_memory (h : heap) (w : world) : world :=
  World h (state w) (reducer w) (chains w) (subscribers w) (listeners w) (trace w).
Definition set_state (s : value) (w : world) : world :=
  World (memory w) s (reducer w) (chains w) (subscribers w) (listeners w) (trace w).
Definition set_reducer (r : value) (w : world) : world :=
  World (memory w) (state w) r (chains w) (subscribers w) (listeners w) (trace w).
Definition set_chains (c : gmap string (list value)) (w : world) : world :=
  World (memory w) (state w) (reducer w) c (subscribers w) (listeners w) (trace w).
Definition set_subscribers (ss : list subscriber) (w : world) : world :=
  World (memory w) (state w) (reducer w) (chains w) ss (listeners w) (trace w).
Definition set_listeners (ls : list nat) (w : world) : world :=
  World (memory w) (state w) (reducer w) (chains w) (subscribers w) ls (trace w).
Definition log (e : event) (w : world) : world :=
  World (memory w) (state w) (reducer w) (chains w) (subscribers w) (listeners w)
    (trace w ++ [e])%list.

(** *** A state and exception monad over [world] *)

Definition M (A : Type) : Type := world → outcome A * world.

Definition ret {A} (a : A) : M A := λ w, (Return a, w).
Definition throw {A} (e : error) : M A := λ w, (Throw e, w).
Definition exhausted {A} : M A := λ w, (Exhausted, w).
Definition bind {A B} (m : M A) (k : A → M B) : M B :=
  λ w, match m w with
       | (Return a, w') => k a w'
       | (Throw e, w') => (Throw e, w')
       | (Exhausted, w') => (Exhausted, w')
       end.
Definition gets {A} (f : world → A) : M A := λ w, (Return (f w), w).
Definition modify (f : world → world) : M unit := λ w, (Return tt, f w).

Notation "'let!' x ':=' m 'in' k" := (bind m (λ x, k))
  (at level 10, x name, m at level 100, k at level 200).
Notation "m ';;;' k" := (bind m (λ _, k))
  (at level 100, k at level 200, right associativity).

(** [xs.forEach(f)] *)
Fixpoint for_each {A} (xs : list A) (f : A → M unit) : M unit :=
  match xs with
  | [] => ret tt
  | x :: xs' => f x ;;; for_each xs' f
  end.

(** An object literal or [Object.assign({}, ...)]: a new record in the heap. *)
Definition new_object (ps : gmap string value) : M value :=
  λ w, let '(l, h) := alloc (OObject ps) (memory w) in (Return (VRef l), set_memory h w).

(** [o[k]] *)
Definition get (o : value) (k : string) : M value :=
  λ w, (get_property (memory w) o k, w).

(** [o[k]] for any key. *)
Definition lookup (o : value) (k : string) : M member :=
  λ w, (lookup_member (memory w) o k, w).

(** [f(args)]: calling what is not a function throws. *)
Definition call `{Host} (f : value) (args : list value) : M value :=
  match f with
  | VFunction c =>
      λ w, let '(h, v) := call_function c (memory w) args in (Return v, set_memory h w)
  | _ => throw (TypeError "is not a function")
  end.

(** A function of [Object.prototype] called as a method of the record
    [this] that inherits it, as [this[k](args)] does. The first argument of
    [hasOwnProperty], [propertyIsEnumerable], [__lookupGetter__] and
    [__lookupSetter__] is made a property key; no record of the heap is the
    prototype of another object; [Object(v)] gives a new record for
    [undefined] and [null] and [v] itself when it is an object or a
    function; [__defineGetter__] and [__defineSetter__] throw when their
    second argument is not a function. Three results are outside the model
    and end the computation with [Unmodelled]: the wrapper object that
    [Object(v)] makes of a boolean, a number or a string, the accessor
    property that [__defineGetter__] and [__defineSetter__] define when they
    are given a function, and the accessor function of [__proto__] that
    [__lookupGetter__] and [__lookupSetter__] find. *)
Definition call_builtin `{Host} (b : builtin) (this : value) (args : list value) : M value :=
  let first := default VUndefined (args !! 0%nat) in
  let second := default VUndefined (args !! 1%nat) in
  match b with
  | ObjectConstructor =>
      match first with
      | VUndefined | VNull => new_object ∅
      | VRef _ | VFunction _ => ret first
      | _ => throw (Unmodelled "wrapper object")
      end
  | ToString => ret (VString "[object Object]")
  | ToLocaleString =>
      let! m := lookup this "toString" in
      match m with
      | Own (VFunction c) => call (VFunction c) []
      | Inherited ToString => ret (VString "[object Object]")
      | _ => throw (TypeError "this.toString is not a function")
      end
  | ValueOf => ret this
  | HasOwnProperty | PropertyIsEnumerable =>
      let! ps := gets (λ w, own_props (memory w) this) in
      ret (VBool (bool_decide (is_Some (ps !! to_string first))))
  | IsPrototypeOf => ret (VBool false)
  | DefineGetter =>
      if isFunc second then throw (Unmodelled "accessor property")
      else throw (TypeError "Object.prototype.__defineGetter__: Expecting function")
  | DefineSetter =>
      if isFunc second then throw (Unmodelled "accessor property")
      else throw (TypeError "Object.prototype.__defineSetter__: Expecting function")
  | LookupGetter | LookupSetter =>
      let! ps := gets (λ w, own_props (memory w) this) in
      if bool_decide (is_Some (ps !! to_string first)) then ret VUndefined
      else if String.eqb (to_string first) "__proto__"
           then throw (Unmodelled "accessor function")
           else ret VUndefined
  end.

(** [this[k](args)], for the member [m] that [this[k]] found. *)
Definition call_member `{Host} (this : value) (m : member) (args : list value) : M value :=
  match m with
  | Own f => call f args
  | Inherited b => call_builtin b this args
  | Prototype | Missing => throw (TypeError "is not a function")
  end.

(** *** The event emitter *)

(** Modelled from the spec: the publish/subscribe primitive that the class
    extends (package eventemitter2) is not among the sources. [on] adds a
    listener after the present ones, [off] detaches a listener and [emit]
    calls the present listeners in the order of their registration. The store
    uses the one event name ['change']. The warning of the emitter about the
    number of listeners is left out. *)
Definition on_change (listener : nat) : M unit :=
  modify (λ w, set_listeners (listeners w ++ [listener])%list w).

Fixpoint remove_first (i : nat) (ls : list nat) : list nat :=
  match ls with
  | [] => []
  | j :: ls' => if bool_decide (j = i) then ls' else j :: remove_first i ls'
  end.

(** Modelled from the spec: [off] of the same primitive. The listener handed
    to it is [None] when the store read it from a position that holds no
    subscriber, which the emitter refuses; a listener that is not registered
    is ignored. *)
Definition off_change (listener : option nat) : M unit :=
  match listener with
  | Some i => modify (λ w, set_listeners (remove_first i (listeners w)) w)
  | None => throw (Error "removeListener only takes instances of Function")
  end.

(** Modelled from the spec: [emit] of the same primitive, synchronous, the
    listeners in the order of their registration. [call_listener] is the call
    of a listener with the payload of the event. *)
Definition emit_change (call_listener : nat → M unit) : M unit :=
  let! ls := gets listeners in for_each ls call_listener.

(** *** The class *)

Section DispatchableStore.
Context `{Host}.

(** Lines 17-25. The default value of the parameter replaces an absent or
    [undefined] argument. *)
Definition construct (h : heap) (initialState : value) : outcome world :=
  let '(initialState, h) :=
    match initialState with
    | VUndefined => let '(l, h') := alloc (OObject ∅) h in (VRef l, h')
    | _ => (initialState, h)
    end in
  if negb (isObj initialState) then Throw (TypeError "Expected a object")
  else Return (World h initialState VUndefined ∅ [] [] []).

(** Lines 33-35. *)
Definition getState : M value :=
  let! s := gets state in
  let! ps := gets (λ w, own_props (memory w) s) in
  new_object (object_assign [ps]).

(** Lines 48-53. *)
Definition register (r : value) : M unit :=
  if negb (isObj r) then throw (TypeError "Expected a object")
  else modify (set_reducer r).

(** The closure of lines 139-143, called with the payload of a change. *)
Definition run_subscriber (i : nat) (action prev next : value) : M unit :=
  let! sub := gets (λ w, subscribers w !! i) in
  match sub with
  | None => ret tt
  | Some sub =>
      let! target := call (stateMapper sub) [next] in
      let! prevTarget := call (stateMapper sub) [prev] in
      if negb (strict_equal target prevTarget)
      then modify (log (Callback i (callback sub) action prevTarget target))
      else ret tt
  end.

(** Lines 161-165. *)
Definition setState (nextState action : value) : M unit :=
  let! prev := gets state in
  modify (set_state nextState) ;;;
  modify (log (Change action prev nextState)) ;;;
  emit_change (λ i, run_subscriber i action prev nextState).

(** Line 70: the copy of the action, with the marker. The default value of
    the parameter [chained] replaces an absent or [undefined] argument. *)
Definition chained_flag (chained : value) : value :=
  match chained with VUndefined => VBool false | _ => chained end.

Definition copy_action (action chained : value) : M value :=
  let! ps := gets (λ w, own_props (memory w) action) in
  new_object (object_assign [ps; {["@@chained" := chained_flag chained]}]).

(** Lines 73-77: the reducer of the type of the copy, or the warning. The
    result is the property key made of the type. *)
Definition apply_reducer (act : value) : M string :=
  let! type := get act "type" in
  let key := to_string type in
  let! table := gets reducer in
  let! r := lookup table key in
  (if is_function r then
     let! s := gets state in
     let! payload := get act "payload" in
     let! next := call_member table r [s; payload] in
     setState next act
   else
     modify (log (Warn ("'" ++ key ++ "' action is not registered in reducer.")))) ;;;
  ret key.

(** Lines 70-77. *)
Definition reducer_step (action chained : value) : M string :=
  let! act := copy_action action chained in
  apply_reducer act.

(** Lines 68-83. *)
Fixpoint dispatch (fuel : nat) (action chained : value) : M unit :=
  match fuel with
  | O => exhausted
  | S fuel' =>
      let! key := reducer_step action chained in
      let! following := gets (λ w, chains w !! key) in
      match following with
      | Some actions => for_each actions (λ a, dispatch fuel' a (VBool true))
      | None => ret tt
      end
  end.

(** Lines 80-82, the second half of [dispatch]: the actions chained to a
    key, in the order of the array, each with [chained] set. *)
Definition fan_out (fuel : nat) (key : string) : M unit :=
  let! following := gets (λ w, chains w !! key) in
  match following with
  | Some actions => for_each actions (λ a, dispatch fuel a (VBool true))
  | None => ret tt
  end.

(** Lines 98-101. [chains] holds the arrays that the registry owns. Under a
    key that has none the registry, a record, reads what it inherits: a
    member of [Object.prototype] stands in for the array, and line 100 does
    not find [push] on it. *)
Definition chain (from action : value) : M unit :=
  let key := to_string from in
  let! present := gets (λ w, chains w !! key) in
  match present, object_prototype key with
  | None, (Inherited _ | Prototype) =>
      throw (TypeError "this.chains[from].push is not a function")
  | _, _ =>
      modify (λ w, set_chains
        (<[key := (default [] (chains w !! key) ++ [action])%list]> (chains w)) w)
  end.

(** Lines 116-119. *)
Definition unsubscribe (index : value) : M unit :=
  if negb (isNumber index) then throw (TypeError "Expected a Number")
  else
    let! listener := gets (λ w, array_index (subscribers w) index) in
    off_change listener.

(** Lines 135-148. *)
Definition subscribe (mapper cb : value) : M value :=
  if negb (isFunc cb) then throw (TypeError "Expected a Function")
  else
    let! i := gets (λ w, length (subscribers w)) in
    modify (λ w, set_subscribers (subscribers w ++ [Subscriber mapper cb])%list w) ;;;
    on_change i ;;;
    let! n := gets (λ w, length (subscribers w)) in
    ret (VNumber (Int (Z.of_nat n - 1))).

End DispatchableStore.

(** ** Sequences of calls on one store *)

(** The public operations. The result of a call is dropped and an exception
    leaves the store as it was when it was raised: that is what a caller who
    catches it goes on with. *)
Inductive op :=
  | OpGetState
  | OpRegister (r : value)
  | OpDispatch (fuel : nat) (action chained : value)
  | OpChain (from action : value)
  | OpSubscribe (mapper cb : value)
  | OpUnsubscribe (index : value).

Definition is_dispatch (o : op) : bool :=
  match o with OpDispatch _ _ _ => true | _ => false end.

Definition is_register (o : op) : bool :=
  match o with OpRegister _ => true | _ => false end.

Definition run_op `{Host} (o : op) (w : world) : world :=
  match o with
  | OpGetState => (getState w).2
  | OpRegister r => (register r w).2
  | OpDispatch fuel action chained => (dispatch fuel action chained w).2
  | OpChain from action => (chain from action w).2
  | OpSubscribe mapper cb => (subscribe mapper cb w).2
  | OpUnsubscribe index => (unsubscribe index w).2
  end.

Definition run_ops `{Host} (ops : list op) (w : world) : world :=
  foldl (λ w o, run_op o w) w ops.

(** ** Reading the trace *)

Definition is_callback_of (i : nat) (e : event) : bool :=
  match e with
  | Callback j _ _ _ _ => bool_decide (j = i)
  | _ => false
  end.

(** The calls of the callback of subscriber [i]. *)
Definition callbacks_of (i : nat) (t : list event) : list event :=
  List.filter (is_callback_of i) t.

(** The change events. *)
Definition is_change (e : event) : bool :=
  match e with Change _ _ _ => true | _ => false end.

Definition changes (t : list event) : list event := List.filter is_change t.

(** Following the change events from a state: each one has to start from the
    state the one before it ended in. *)
Fixpoint replay (s : value) (t : list event) : option value :=
  match t with
  | [] => Some s
  | Change _ prev next :: t' => if decide (prev = s) then replay next t' else None
  | _ :: t' => replay s t'
  end.

(** ** What a well-behaved host does *)

(** Reducers and state mappers are pure: they may build new objects but
    leave the ones that exist as they are. *)
Class PureHost `{Host} : Prop :=
  call_extends : ∀ f h args, h ⊆ (call_function f h args).1.

(** No reference of the value dangles. *)
Definition allocated (h : heap) (v : value) : Prop :=
  match v with
  | VRef l => is_Some (h !! l)
  | _ => True
  end.

(** The property key that [dispatch] makes of an action. *)
Definition action_key `{Host} (h : heap) (action : value) : string :=
  to_string (default VUndefined (own_props h action !! "type")).

Definition action_payload (h : heap) (action : value) : value :=
  default VUndefined (own_props h action !! "payload").

(** The properties of the copy that [dispatch] makes of an action. *)
Definition action_copy (h : heap) (action chained : value) : gmap string value :=
  <["@@chained" := chained_flag chained]> (own_props h action).

(** The order in which [dispatch] takes the actions, as the specification
    gives it: the action itself and then the actions chained to its type, in
    the order of their registration and with [chained] set, each one followed
    at once by the actions chained to its own type. [None] stands for a
    dispatch nested deeper than the fuel allows. *)
Fixpoint dispatch_order (fuel : nat) (key_of : value → string)
    (registry : gmap string (list value)) (action chained : value)
    : list (option (value * value)) :=
  match fuel with
  | O => [None]
  | S fuel' =>
      Some (action, chained) ::
      flat_map (λ a, dispatch_order fuel' key_of registry a (VBool true))
        (default [] (registry !! key_of action))
  end.

(** One entry of that order: the reducer step of the action. *)
Definition run_step `{Host} (step : option (value * value)) : M unit :=
  match step with
  | Some (action, chained) => reducer_step action chained ;;; ret tt
  | None => exhausted
  end.

(** What the reducer step needs to return, for an action whose type is no
    member of [Object.prototype]: a record registered as reducer table, and
    state mappers that are functions. *)
Definition ready (w : world) : Prop :=
  (∃ lr table, reducer w = VRef lr ∧ memory w !! lr = Some (OObject table)) ∧
  (∀ j sub, j ∈ listeners w → subscribers w !! j = Some sub →
            isFunc (stateMapper sub) = true).

(** The actions of an order are objects of the heap, and their types are no
    members of [Object.prototype]. *)
Definition plain_steps `{Host} (h : heap) (steps : list (option (value * value))) : Prop :=
  ∀ a c, Some (a, c) ∈ steps →
         allocated h a ∧ object_prototype (action_key h a) = Missing.

(** The chain registry owns arrays under keys that [Object.prototype] has no
    member for. *)
Definition own_chains (w : world) : Prop :=
  ∀ k, is_Some (chains w !! k) → object_prototype k = Missing.

(** The trace was extended by events that are not change events. *)
Definition no_change (w w' : world) : Prop :=
  ∃ t, trace w' = (trace w ++ t)%list ∧ changes t = [].

(** The state is the same. *)
Definition same_state (w w' : world) : Prop := state w' = state w.

(** A relation between the world before and the world after that every step
    of a computation keeps is kept by the whole computation. *)
Definition preserves {A} (R : relation world) (m : M A) : Prop :=
  ∀ w, R w (m w).2.

(** *** Relations that [dispatch] keeps *)

(** A relation between worlds is stable when it is a preorder that leaves
    the subscribers and the listeners alone and that each elementary effect
    of [dispatch] keeps: an allocation, a call of host code, a warning, a
    committed transition with its change event, and the call of the callback
    of a listening subscriber. *)
Class Stable `{Host} (R : relation world) : Prop := {
  #[global] stable_preorder :: PreOrder R;
  stable_subscribers : ∀ w w', R w w' → subscribers w' = subscribers w;
  stable_listeners : ∀ w w', R w w' → listeners w' = listeners w;
  stable_alloc : ∀ o w, R w (set_memory (alloc o (memory w)).2 w);
  stable_call : ∀ f args w, R w (set_memory (call_function f (memory w) args).1 w);
  stable_warn : ∀ msg w, R w (log (Warn msg) w);
  stable_change : ∀ act s w, R w (log (Change act (state w) s) (set_state s w));
  stable_callback : ∀ i sub act pt t w,
    i ∈ listeners w → subscribers w !! i = Some sub →
    R w (log (Callback i (callback sub) act pt t) w);
}.

(** *** Four stable relations *)

(** The registries of the store are the same. *)
Definition frame (w w' : world) : Prop :=
  reducer w' = reducer w ∧ chains w' = chains w ∧
  subscribers w' = subscribers w ∧ listeners w' = listeners w.

(** The trace was extended by events whose changes lead from the state
    before to the state after. *)
Definition follows (w w' : world) : Prop :=
  ∃ t, trace w' = (trace w ++ t)%list ∧ replay (state w) t = Some (state w').

(** The state changed along change events only. *)
Definition linked (w w' : world) : Prop := frame w w' ∧ follows w w'.

(** The objects of the heap are the same, next to new ones. *)
Definition grows (w w' : world) : Prop :=
  frame w w' ∧ memory w ⊆ memory w'.

(** The callback of a subscriber that is not listening was not called. *)
Definition silent (i : nat) (w w' : world) : Prop :=
  frame w w' ∧
  (i ∉ listeners w → callbacks_of i (trace w') = callbacks_of i (trace w)).

(** The listeners of the emitter are subscribers of the store, each once. *)
Definition wf_listeners (w : world) : Prop :=
  NoDup (listeners w) ∧ ∀ i, i ∈ listeners w → (i < length (subscribers w))%nat.

(** The invariant behind an index that [subscribe] has returned. *)
Definition indexed (i : nat) (w : world) : Prop :=
  wf_listeners w ∧ (i < length (subscribers w))%nat.

(** A record, as opposed to an array, [null] or a primitive. *)
Definition is_record (h : heap) (v : value) : bool :=
  match v with
  | VRef l => match h !! l with Some (OObject _) => true | _ => false end
  | _ => false
  end.

(** ** A host and a heap for examples *)

Module Demo.

Definition number_of (v : value) : Z :=
  match v with VNumber (Int z) => z | _ => 0 end.

Definition prop_of (h : heap) (v : value) (k : string) : value :=
  default VUndefined (own_props h v !! k).

(** The digits without the zeros at their end. *)
Fixpoint strip_zeros (digits : string) : string :=
  match digits with
  | EmptyString => EmptyString
  | String d digits' =>
      let rest := strip_zeros digits' in
      if String.eqb rest "" && Ascii.eqb d (Ascii.ascii_of_nat 48) then ""
      else String d rest
  end.

(** The notation of JavaScript for a number from 1e21 on, for an integer
    that is given by the digits of that notation: [1e+21] for 10^21. *)
Definition exponent_notation (z : Z) : string :=
  let digits := pretty (Z.abs z) in
  let exponent := pretty (Z.of_nat (String.length digits) - 1) in
  let mantissa :=
    match strip_zeros digits with
    | String d EmptyString => String d EmptyString
    | String d rest => String d ("." ++ rest)
    | EmptyString => ""
    end in
  (if bool_decide (z < 0) then "-" else "") ++ mantissa ++ "e+" ++ exponent.

(** The strings that the engine would make: of an object, and of a number
    that is not a safe integer. *)
Definition string_of (v : value) : string :=
  match v with
  | VNumber (Int z) =>
      if bool_decide (Z.abs z < 10 ^ 21) then pretty z else exponent_notation z
  | _ => "[object Object]"
  end.

(** Function 0 is the reducer [(s, p) => ({...s, count: s.count + p.amount})],
    function 1 the mapper [s => s], function 2 the mapper [s => s.count] and
    function 3 the reducer [(s, p) => p]; the others return [undefined].
    Every object has the string ['[object Object]']. *)
Definition host : Host := {|
  call_function f h args :=
    match f, args with
    | 0%nat, [s; p] =>
        let c := number_of (prop_of h s "count") + number_of (prop_of h p "amount") in
        let '(l, h') := alloc (OObject (<["count" := VNumber (Int c)]> (own_props h s))) h in
        (h', VRef l)
    | 1%nat, [s] => (h, s)
    | 2%nat, [s] => (h, prop_of h s "count")
    | 3%nat, [s; p] => (h, p)
    | _, _ => (h, VUndefined)
    end;
  ref_to_string := string_of |}.

(** 1: the initial state [{count: 0}]; 2: the reducers
    [{INC: function 0, SET: function 3}]; 3: the action [{type: "LOG"}];
    4: the payload [{amount: 5}]; 5: the action [{type: "INC", payload: 4}];
    6: the action [{type: "SET", payload: 7}]; 7: an empty array;
    8: a second table [{SET: function 3}]. *)
Definition objects : heap :=
  list_to_map
    [(1%positive, OObject {["count" := VNumber (Int 0)]});
     (2%positive, OObject (<["INC" := VFunction 0]> {["SET" := VFunction 3]}));
     (3%positive, OObject {["type" := VString "LOG"]});
     (4%positive, OObject {["amount" := VNumber (Int 5)]});
     (5%positive, OObject (<["type" := VString "INC"]> {["payload" := VRef 4]}));
     (6%positive, OObject (<["type" := VString "SET"]> {["payload" := VNumber (Int 7)]}));
     (7%positive, OArray []);
     (8%positive, OObject {["SET" := VFunction 3]})].

(** The store made of the initial state 1. *)
Definition store : world := World objects (VRef 1) VUndefined ∅ [] [] [].

End Demo.

(** ** More readers of the operations and of the trace *)

(** A call of [subscribe] that registers a subscriber. *)
Definition is_subscription (o : op) : bool :=
  match o with OpSubscribe _ cb => isFunc cb | _ => false end.

(** The subscribers whose callbacks a trace calls, in the order of the
    calls. *)
Definition callback_ids (t : list event) : list nat :=
  omap (λ e, match e with Callback j _ _ _ _ => Some j | _ => None end) t.

(** The events by which a dispatch announces what it did with its action:
    the change event or the warning. *)
Definition is_announcement (e : event) : bool :=
  match e with Change _ _ _ | Warn _ => true | Callback _ _ _ _ _ => false end.

Definition announcements (t : list event) : list event :=
  List.filter is_announcement t.

(** The trace was extended by calls of callbacks only, of listeners among
    [ls] and in the order of [ls]. *)
Definition served (ls : list nat) (w w' : world) : Prop :=
  ∃ t, trace w' = (trace w ++ t)%list ∧ announcements t = [] ∧
       callback_ids t `sublist_of` ls.

(** Unfolding the monad. *)
Ltac msimpl :=
  unfold bind, gets, modify, ret, throw, exhausted, get, on_change, off_change;
  cbn beta iota.

(** ** Basic facts *)

Section MonadFacts.
Context {A B C : Type}.

Lemma bind_ret_l (a : A) (k : A → M B) w : bind (ret a) k w = k a w.
Proof. reflexivity. Qed.

Lemma bind_ret_r (m : M A) w : bind m ret w = m w.
Proof. unfold bind, ret. by destruct (m w) as [[]]. Qed.

Lemma bind_assoc (m : M A) (k : A → M B) (k' : B → M C) w :
  bind (bind m k) k' w = bind m (λ a, bind (k a) k') w.
Proof. unfold bind. by destruct (m w) as [[]]. Qed.

End MonadFacts.

Lemma for_each_app {A} (xs ys : list A) (f : A → M unit) w :
  for_each (xs ++ ys) f w = (for_each xs f ;;; for_each ys f) w.
Proof.
  revert w. induction xs as [|x xs IH]; intros w; simpl.
  - reflexivity.
  - rewrite bind_assoc. unfold bind at 1 2.
    destruct (f x w) as [[] w']; [apply IH|done..].
Qed.

Section Preserves.
Context (R : relation world) `{!PreOrder R}.

Lemma preserves_ret {A} (a : A) : preserves R (ret a).
Proof. intros w. reflexivity. Qed.

Lemma preserves_exhausted {A} : preserves R (@exhausted A).
Proof. intros w. reflexivity. Qed.

Lemma preserves_gets {A} (f : world → A) : preserves R (gets f).
Proof. intros w. reflexivity. Qed.

Lemma preserves_get o k : preserves R (get o k).
Proof. intros w. reflexivity. Qed.

Lemma preserves_lookup o k : preserves R (lookup o k).
Proof. intros w. reflexivity. Qed.

Lemma preserves_throw {A} e : preserves R (@throw A e).
Proof. intros w. reflexivity. Qed.

Lemma preserves_modify f : (∀ w, R w (f w)) → preserves R (modify f).
Proof. intros Hf w. apply Hf. Qed.

Lemma preserves_bind {A B} (m : M A) (k : A → M B) :
  preserves R m → (∀ a, preserves R (k a)) → preserves R (bind m k).
Proof.
  intros Hm Hk w. unfold bind. specialize (Hm w).
  destruct (m w) as [[a|e|] w'] eqn:E; simpl in *; auto.
  etrans; [exact Hm|apply Hk].
Qed.

Lemma preserves_for_each {A} (xs : list A) (f : A → M unit) :
  (∀ x, preserves R (f x)) → preserves R (for_each xs f).
Proof.
  intros Hf. induction xs as [|x xs IH]; simpl.
  - apply preserves_ret.
  - apply preserves_bind; auto.
Qed.

Lemma preserves_if {A} (b : bool) (m1 m2 : M A) :
  preserves R m1 → preserves R m2 → preserves R (if b then m1 else m2).
Proof. by destruct b. Qed.
End Preserves.

Section StableFacts.
Context `{Host} (R : relation world) `{!Stable R}.

Lemma new_object_stable ps : preserves R (new_object ps).
Proof.
  intros w. unfold new_object.
  pose proof (stable_alloc (OObject ps) w) as Hs.
  destruct (alloc (OObject ps) (memory w)) as [l h]. exact Hs.
Qed.

Lemma call_stable f args : preserves R (call f args).
Proof.
  intros w. destruct f; simpl; try reflexivity.
  pose proof (stable_call f args w) as Hs.
  destruct (call_function f (memory w) args) as [h v]. exact Hs.
Qed.

Lemma call_builtin_stable b this args : preserves R (call_builtin b this args).
Proof.
  unfold call_builtin.
  destruct b;
    repeat first
      [ apply preserves_ret; apply _
      | apply preserves_throw; apply _
      | apply new_object_stable
      | apply call_stable
      | apply preserves_if
      | apply preserves_bind;
          [apply _|first [apply preserves_gets|apply preserves_lookup]; apply _|intros ?]
      | match goal with |- preserves _ (match ?x with _ => _ end) => destruct x end ].
Qed.

Lemma call_member_stable this m args : preserves R (call_member this m args).
Proof.
  destruct m; simpl;
    [apply call_stable|apply call_builtin_stable|apply preserves_throw; apply _..].
Qed.

Lemma run_subscriber_stable i act prev next w :
  i ∈ listeners w → R w (run_subscriber i act prev next w).2.
Proof.
  intros Hi. unfold run_subscriber. unfold bind at 1, gets.
  destruct (subscribers w !! i) as [sub|] eqn:Hsub; [|reflexivity].
  pose proof (call_stable (stateMapper sub) [next] w) as H1.
  unfold bind at 1.
  destruct (call (stateMapper sub) [next] w) as [[target|e|] w1]; simpl in H1; try exact H1.
  pose proof (call_stable (stateMapper sub) [prev] w1) as H2.
  unfold bind at 1.
  destruct (call (stateMapper sub) [prev] w1) as [[prevTarget|e|] w2]; simpl in H2;
    try (etrans; [exact H1|exact H2]).
  assert (R w w2) as H12 by (etrans; [exact H1|exact H2]).
  destruct (strict_equal target prevTarget); simpl; [exact H12|].
  etrans; [exact H12|]. apply stable_callback.
  - by rewrite (stable_listeners _ _ H12).
  - by rewrite (stable_subscribers _ _ H12).
Qed.

Lemma notify_stable ls act prev next w :
  ls ⊆ listeners w →
  R w (for_each ls (λ i, run_subscriber i act prev next) w).2.
Proof.
  revert w. induction ls as [|i ls IH]; intros w Hls; simpl; [reflexivity|].
  assert (i ∈ listeners w) as Hi by (apply Hls; left).
  pose proof (run_subscriber_stable i act prev next w Hi) as H1.
  unfold bind.
  destruct (run_subscriber i act prev next w) as [[[]|e|] w1]; simpl in H1; try exact H1.
  etrans; [exact H1|]. apply IH.
  rewrite (stable_listeners _ _ H1). intros j Hj. apply Hls. by right.
Qed.

Lemma setState_stable next act : preserves R (setState next act).
Proof.
  intros w. unfold setState, emit_change. cbn [bind gets modify].
  etrans; [apply (stable_change act next w)|].
  by apply notify_stable.
Qed.

Lemma copy_action_stable action chained : preserves R (copy_action action chained).
Proof.
  unfold copy_action.
  apply preserves_bind; [apply _|apply preserves_gets; apply _|intros ps].
  apply new_object_stable.
Qed.

Lemma apply_reducer_stable act : preserves R (apply_reducer act).
Proof.
  unfold apply_reducer.
  apply preserves_bind; [apply _|apply preserves_get; apply _|intros type].
  apply preserves_bind; [apply _|apply preserves_gets; apply _|intros table].
  apply preserves_bind; [apply _|apply preserves_lookup; apply _|intros r].
  apply preserves_bind; [apply _| |intros _; apply preserves_ret; apply _].
  apply preserves_if.
  - apply preserves_bind; [apply _|apply preserves_gets; apply _|intros s].
    apply preserves_bind; [apply _|apply preserves_get; apply _|intros payload].
    apply preserves_bind; [apply _|apply call_member_stable|intros next].
    apply setState_stable.
  - apply preserves_modify. intros w. apply stable_warn.
Qed.

Lemma reducer_step_stable action chained : preserves R (reducer_step action chained).
Proof.
  unfold reducer_step.
  apply preserves_bind; [apply _|apply copy_action_stable|intros act].
  apply apply_reducer_stable.
Qed.

Lemma dispatch_stable fuel action chained : preserves R (dispatch fuel action chained).
Proof.
  revert action chained. induction fuel as [|fuel IH]; intros action chained; simpl.
  - apply preserves_exhausted. apply _.
  - apply preserves_bind; [apply _|apply reducer_step_stable|intros key].
    apply preserves_bind; [apply _|apply preserves_gets; apply _|intros [actions|]].
    + apply preserves_for_each; [apply _|]. intros a. apply IH.
    + apply preserves_ret. apply _.
Qed.
End StableFacts.

Lemma replay_app s t1 t2 :
  replay s (t1 ++ t2) = replay s t1 ≫= λ s', replay s' t2.
Proof.
  revert s. induction t1 as [|e t1 IH]; intros s; simpl; [done|].
  destruct e; auto. case_decide; auto.
Qed.

Lemma callbacks_of_app i t1 t2 :
  callbacks_of i (t1 ++ t2) = (callbacks_of i t1 ++ callbacks_of i t2)%list.
Proof. apply List.filter_app. Qed.

Lemma alloc_fresh o h : h !! (alloc o h).1 = None.
Proof. simpl. apply not_elem_of_dom, is_fresh. Qed.

Lemma alloc_lookup o h : (alloc o h).2 !! (alloc o h).1 = Some o.
Proof. simpl. apply lookup_insert_eq. Qed.

Lemma alloc_extends o h : h ⊆ (alloc o h).2.
Proof. simpl. apply insert_subseteq, not_elem_of_dom, is_fresh. Qed.

#[global] Instance frame_preorder : PreOrder frame.
Proof.
  split.
  - by intros w.
  - intros w1 w2 w3 (?&?&?&?) (?&?&?&?). repeat split; congruence.
Qed.

#[global] Instance frame_stable `{Host} : Stable frame.
Proof. split; try apply _; try done; by intros ?? (?&?&?&?). Qed.

#[global] Instance linked_stable `{Host} : Stable linked.
Proof.
  split.
  - split.
    + intros w. split; [reflexivity|]. exists []. by rewrite app_nil_r.
    + intros w1 w2 w3 [F1 (t1&E1&R1)] [F2 (t2&E2&R2)].
      split; [by etrans|]. exists (t1 ++ t2)%list. split.
      * by rewrite E2, E1, app_assoc.
      * by rewrite replay_app, R1.
  - by intros ?? [(?&?&?&?) _].
  - by intros ?? [(?&?&?&?) _].
  - intros o w. split; [done|]. exists []. by rewrite app_nil_r.
  - intros f args w. split; [done|]. exists []. by rewrite app_nil_r.
  - intros msg w. split; [done|]. by exists [Warn msg].
  - intros act s w. split; [done|]. exists [Change act (state w) s].
    split; [done|]. simpl. by rewrite decide_True.
  - intros i sub act pt t w _ _. split; [done|].
    by exists [Callback i (callback sub) act pt t].
Qed.

#[global] Instance grows_stable `{PureHost} : Stable grows.
Proof.
  split.
  - split.
    + by intros w.
    + intros w1 w2 w3 [F1 M1] [F2 M2]. split; by etrans.
  - by intros ?? [(?&?&?&?) _].
  - by intros ?? [(?&?&?&?) _].
  - intros o w. split; [done|]. apply alloc_extends.
  - intros f args w. split; [done|]. apply call_extends.
  - by intros msg w.
  - by intros act s w.
  - by intros i sub act pt t w _ _.
Qed.

#[global] Instance silent_stable `{Host} i : Stable (silent i).
Proof.
  split.
  - split.
    + by intros w.
    + intros w1 w2 w3 [F1 S1] [F2 S2]. split; [by etrans|].
      intros Hi. rewrite S2, S1; [done..|].
      destruct F1 as (_&_&_&->). done.
  - by intros ?? [(?&?&?&?) _].
  - by intros ?? [(?&?&?&?) _].
  - by intros o w.
  - by intros f args w.
  - intros msg w. split; [done|]. intros _. simpl.
    by rewrite callbacks_of_app, app_nil_r.
  - intros act s w. split; [done|]. intros _. simpl.
    by rewrite callbacks_of_app, app_nil_r.
  - intros j sub act pt t w Hj _. split; [done|]. intros Hi. simpl.
    rewrite callbacks_of_app. simpl.
    rewrite bool_decide_false; [by rewrite app_nil_r|]. by intros ->.
Qed.

(** ** Construction *)

(** C5, as the code has it: construction throws the type error exactly for
    booleans, numbers, strings and functions. A value whose [typeof] is
    ['object'] (a record, an array or [null]) becomes the state of a store
    with no reducer table, no chains and no subscribers, and an absent
    argument becomes a new empty record. *)
Theorem construct_type_error (h : heap) (v : value) :
  (construct h v = Throw (TypeError "Expected a object") ↔
     isObj v = false ∧ v ≠ VUndefined) ∧
  (construct h v = Return (World h v VUndefined ∅ [] [] []) ↔ isObj v = true) ∧
  (construct h VUndefined =
     Return (World (alloc (OObject ∅) h).2 (VRef (alloc (OObject ∅) h).1)
               VUndefined ∅ [] [] [])).
Proof.
  split; [|split].
  - destruct v; simpl; split; try done; intros [? ?]; done.
  - destruct v; simpl; split; done.
  - reflexivity.
Qed.

(** C5, as the specification has it, fails: an array and [null] are not
    records, and construction accepts both. *)
Lemma construct_accepts_array_and_null :
  (is_record Demo.objects (VRef 7) = false ∧
   construct Demo.objects (VRef 7) =
     Return (World Demo.objects (VRef 7) VUndefined ∅ [] [] [])) ∧
  (is_record Demo.objects VNull = false ∧
   construct Demo.objects VNull =
     Return (World Demo.objects VNull VUndefined ∅ [] [] [])).
Proof. repeat split; vm_compute; reflexivity. Qed.

(** ** Registration *)

(** C8: two registrations in a row leave the second table, by reference, as
    the table of the store. The store is the one that registering the second
    table alone gives, the heap is untouched, and [dispatch] reads the
    reducers from the second table. *)
Theorem register_replaces `{Host} (m1 m2 : value) (w : world) :
  isObj m1 = true → isObj m2 = true →
  ∃ w1 w2,
    register m1 w = (Return tt, w1) ∧
    register m2 w1 = (Return tt, w2) ∧
    reducer w2 = m2 ∧
    w2 = (register m2 w).2 ∧
    memory w2 = memory w ∧
    ∀ k, (let! table := gets reducer in get table k) w2 =
         (get_property (memory w) m2 k, w2).
Proof.
  intros H1 H2. exists (set_reducer m1 w), (set_reducer m2 w).
  unfold register. rewrite H1, H2. simpl. repeat split.
Qed.

Lemma register_replaces_witness :
  ∃ w1 w2,
    register (VRef 2) Demo.store = (Return tt, w1) ∧
    register (VRef 8) w1 = (Return tt, w2) ∧
    reducer w2 = VRef 8 ∧
    w2 = (register (VRef 8) Demo.store).2 ∧
    memory w2 = memory Demo.store ∧
    ∀ k, (let! table := gets reducer in get table k) w2 =
         (get_property (memory Demo.store) (VRef 8) k, w2).
Proof.
  apply (register_replaces (H := Demo.host) (VRef 2) (VRef 8) Demo.store);
    reflexivity.
Defined.

(** ** Reading the state *)

Lemma set_property_other h l k v l' :
  l' ≠ l → set_property h l k v !! l' = h !! l'.
Proof.
  intros Hne. unfold set_property.
  destruct (h !! l) as [[]|]; try done. by rewrite lookup_insert_ne.
Qed.

Lemma delete_property_other h l k l' :
  l' ≠ l → delete_property h l k !! l' = h !! l'.
Proof.
  intros Hne. unfold delete_property.
  destruct (h !! l) as [[]|]; try done. by rewrite lookup_insert_ne.
Qed.

Lemma object_assign_one ps : object_assign [ps] = ps.
Proof. unfold object_assign. simpl. apply (right_id_L ∅ (∪)). Qed.



(** ** The transition step *)

#[global] Instance same_state_preorder : PreOrder same_state.
Proof. split; [by intros w|]. intros w1 w2 w3 E1 E2. unfold same_state in *. congruence. Qed.

Lemma call_state `{Host} f args : preserves same_state (call f args).
Proof.
  intros w. destruct f; try done. simpl.
  by destruct (call_function f (memory w) args).
Qed.

Lemma run_subscriber_state `{Host} i act prev next :
  preserves same_state (run_subscriber i act prev next).
Proof.
  unfold run_subscriber.
  apply preserves_bind; [apply _|apply preserves_gets; apply _|intros [sub|]].
  - apply preserves_bind; [apply _|apply call_state|intros target].
    apply preserves_bind; [apply _|apply call_state|intros prevTarget].
    apply preserves_if; [by apply preserves_modify|apply preserves_ret; apply _].
  - apply preserves_ret; apply _.
Qed.

(** The transition step commits the new state, whatever the listeners do. *)
Lemma setState_state `{Host} next act w : state (setState next act w).2 = next.
Proof.
  unfold setState, emit_change. msimpl.
  apply (preserves_for_each same_state _ _
           (λ i, run_subscriber_state i act (state w) next)).
Qed.

(** ** The state changes through the transition step only *)

Lemma follows_refl w : follows w w.
Proof. exists []. by rewrite app_nil_r. Qed.

Lemma follows_trans w1 w2 w3 : follows w1 w2 → follows w2 w3 → follows w1 w3.
Proof.
  intros (t1&E1&R1) (t2&E2&R2). exists (t1 ++ t2)%list. split.
  - by rewrite E2, E1, app_assoc.
  - by rewrite replay_app, R1.
Qed.

Lemma follows_same w w' : state w' = state w → trace w' = trace w → follows w w'.
Proof. intros Hs Ht. exists []. by rewrite app_nil_r, Hs, Ht. Qed.

(** [chain] throws and leaves the store as it is, or returns and leaves it
    with the action added to the array of the key. *)
Lemma chain_world `{Host} from action w :
  (chain from action w).2 = w ∨
  (chain from action w).2 =
    set_chains (<[to_string from :=
                  (default [] (chains w !! to_string from) ++ [action])%list]> (chains w)) w.
Proof.
  unfold chain. msimpl.
  destruct (chains w !! to_string from) eqn:E; simpl; [right; by rewrite E|].
  destruct (object_prototype (to_string from)); simpl;
    first [by left|right; by rewrite E].
Qed.

Lemma quiet_op `{Host} o w :
  is_dispatch o = false → state (run_op o w) = state w ∧ trace (run_op o w) = trace w.
Proof.
  intros Ho. destruct o as [|r|fuel a c|from a|mapper cb|index]; try done; simpl.
  - unfold register. by destruct (isObj r).
  - by destruct (chain_world from a w) as [-> | ->].
  - unfold subscribe. by destruct (isFunc cb).
  - unfold unsubscribe. destruct (isNumber index); [|done]. simpl.
    cbn [bind gets]. by destruct (array_index (subscribers w) index).
Qed.

Lemma run_op_follows `{Host} o w : follows w (run_op o w).
Proof.
  destruct (is_dispatch o) eqn:Ho.
  - destruct o; try done. simpl. apply (dispatch_stable linked).
  - destruct (quiet_op o w Ho). by apply follows_same.
Qed.

Lemma run_ops_follows `{Host} ops w : follows w (run_ops ops w).
Proof.
  revert w. induction ops as [|o ops IH]; intros w; simpl.
  - apply follows_refl.
  - eapply follows_trans; [apply run_op_follows|apply IH].
Qed.

#[global] Instance no_change_preorder : PreOrder no_change.
Proof.
  split.
  - intros w. exists []. by rewrite app_nil_r.
  - intros w1 w2 w3 (t1&E1&C1) (t2&E2&C2). exists (t1 ++ t2)%list. split.
    + by rewrite E2, E1, app_assoc.
    + unfold changes in *. by rewrite List.filter_app, C1, C2.
Qed.

Lemma call_no_change `{Host} f args : preserves no_change (call f args).
Proof.
  intros w. destruct f; try reflexivity. simpl.
  destruct (call_function f (memory w) args). exists []. simpl. by rewrite app_nil_r.
Qed.

Lemma run_subscriber_no_change `{Host} i act prev next :
  preserves no_change (run_subscriber i act prev next).
Proof.
  unfold run_subscriber.
  apply preserves_bind; [apply _|apply preserves_gets; apply _|intros [sub|]].
  - apply preserves_bind; [apply _|apply call_no_change|intros target].
    apply preserves_bind; [apply _|apply call_no_change|intros prevTarget].
    apply preserves_if; [|apply preserves_ret; apply _].
    apply preserves_modify. intros w. by eexists [_].
  - apply preserves_ret; apply _.
Qed.

(** The transition step: one change event, with the action, the state that
    is replaced and the state that is committed, and after it only calls of
    callbacks. *)
Lemma setState_one_change `{Host} next act w :
  ∃ t, trace (setState next act w).2 = (trace w ++ Change act (state w) next :: t)%list ∧
       changes t = [] ∧ state (setState next act w).2 = next.
Proof.
  destruct (preserves_for_each no_change (listeners w) _
              (λ i, run_subscriber_no_change i act (state w) next)
              (log (Change act (state w) next) (set_state next w))) as (t & Et & Ct).
  exists t. split_and!; [|done|apply setState_state].
  unfold setState, emit_change. msimpl.
  change (listeners (log _ (set_state next w))) with (listeners w).
  rewrite Et. simpl. by rewrite <- app_assoc.
Qed.

(** C10: a call of [getState], [register], [chain], [subscribe] or
    [unsubscribe] leaves the state (and the trace) as it was, whether it
    returns or throws. The transition step replaces the state and emits one
    change event, which carries the action, the state it replaced and the
    state it committed. Over any sequence of calls, the change events that
    were emitted lead from the state before to the state after: the state
    changed in transition steps only. *)
Theorem state_changes_by_transitions `{Host} (ops : list op) (w : world) :
  (∀ o, is_dispatch o = false →
        state (run_op o w) = state w ∧ trace (run_op o w) = trace w) ∧
  (∀ next act,
     ∃ t, trace (setState next act w).2 = (trace w ++ Change act (state w) next :: t)%list ∧
          changes t = [] ∧ state (setState next act w).2 = next) ∧
  (∃ t, trace (run_ops ops w) = (trace w ++ t)%list ∧
        replay (state w) t = Some (state (run_ops ops w))).
Proof.
  split_and!.
  - intros o. apply quiet_op.
  - intros next act. apply setState_one_change.
  - apply run_ops_follows.
Qed.

Lemma state_changes_by_transitions_witness :
  let ops := [OpRegister (VRef 2); OpSubscribe (VFunction 1) (VFunction 9);
              OpDispatch 3 (VRef 5) VUndefined] in
  (state (run_op (H := Demo.host) (OpRegister (VRef 2)) Demo.store) = state Demo.store ∧
   trace (run_op (H := Demo.host) (OpRegister (VRef 2)) Demo.store) = trace Demo.store) ∧
  (∃ t, trace (run_ops (H := Demo.host) ops Demo.store) = (trace Demo.store ++ t)%list ∧
        replay (state Demo.store) t = Some (state (run_ops (H := Demo.host) ops Demo.store))).
Proof.
  intros ops. split.
  - apply (proj1 (state_changes_by_transitions (H := Demo.host) ops Demo.store)
             (OpRegister (VRef 2))).
    reflexivity.
  - apply (proj2 (proj2 (state_changes_by_transitions (H := Demo.host) ops Demo.store))).
Defined.

(** ** Unsubscribing *)

Lemma remove_first_subseteq i ls : remove_first i ls ⊆ ls.
Proof.
  induction ls as [|j ls IH]; simpl; [done|].
  case_bool_decide.
  - intros x Hx. by right.
  - intros x [->|Hx]%elem_of_cons; [left|right; by apply IH].
Qed.

Lemma remove_first_NoDup i ls : NoDup ls → NoDup (remove_first i ls).
Proof.
  induction 1 as [|j ls Hj Hnd IH]; simpl; [constructor|].
  case_bool_decide; [done|]. constructor; [|done].
  intros Hin. apply Hj. by apply (remove_first_subseteq i).
Qed.

Lemma remove_first_not_elem i ls : NoDup ls → i ∉ remove_first i ls.
Proof.
  induction 1 as [|j ls Hj Hnd IH]; simpl; [by intros ?%elem_of_nil|].
  case_bool_decide; [by subst|].
  intros [->|Hin]%elem_of_cons; [done|by apply IH].
Qed.

Lemma run_op_wf `{Host} o w : wf_listeners w → wf_listeners (run_op o w).
Proof.
  intros [Hnd Hlt].
  destruct o as [|r|fuel a c|from a|mapper cb|index]; simpl.
  - done.
  - unfold register. by destruct (isObj r).
  - destruct (dispatch_stable frame fuel a c w) as (_&_&Es&El).
    unfold wf_listeners. by rewrite Es, El.
  - by destruct (chain_world from a w) as [-> | ->].
  - unfold subscribe. destruct (isFunc cb); [|done]. simpl.
    unfold wf_listeners. simpl. rewrite length_app. simpl. split.
    + apply NoDup_app. split_and!; [done| |apply NoDup_singleton].
      intros j Hj Hj'%list_elem_of_singleton. apply Hlt in Hj. lia.
    + intros j [Hj|Hj]%elem_of_app; [apply Hlt in Hj; lia|].
      apply list_elem_of_singleton in Hj. lia.
  - unfold unsubscribe. destruct (isNumber index); [|done]. simpl.
    cbn [bind gets]. destruct (array_index (subscribers w) index); [|done].
    simpl. unfold wf_listeners. simpl. split.
    + by apply remove_first_NoDup.
    + intros j Hj. by apply Hlt, (remove_first_subseteq n).
Qed.

Lemma run_op_subscribers `{Host} o w :
  (length (subscribers w) ≤ length (subscribers (run_op o w)))%nat.
Proof.
  destruct o as [|r|fuel a c|from a|mapper cb|index]; simpl.
  - done.
  - unfold register. by destruct (isObj r).
  - destruct (dispatch_stable frame fuel a c w) as (_&_&Es&El). by rewrite Es.
  - by destruct (chain_world from a w) as [-> | ->].
  - unfold subscribe. destruct (isFunc cb); [|done]. simpl.
    rewrite length_app. lia.
  - unfold unsubscribe. destruct (isNumber index); [|done]. simpl.
    cbn [bind gets]. by destruct (array_index (subscribers w) index).
Qed.

Lemma run_ops_wf `{Host} ops w : wf_listeners w → wf_listeners (run_ops ops w).
Proof.
  revert w. induction ops as [|o ops IH]; intros w Hw; simpl; [done|].
  by apply IH, run_op_wf.
Qed.

Lemma run_op_indexed `{Host} i o w : indexed i w → indexed i (run_op o w).
Proof.
  intros [Hwf Hi]. split; [by apply run_op_wf|].
  pose proof (run_op_subscribers o w). lia.
Qed.

Lemma run_ops_indexed `{Host} i ops w : indexed i w → indexed i (run_ops ops w).
Proof.
  revert w. induction ops as [|o ops IH]; intros w Hw; simpl; [done|].
  by apply IH, run_op_indexed.
Qed.

Lemma run_op_detached `{Host} i o w :
  indexed i w → i ∉ listeners w →
  (i ∉ listeners (run_op o w)) ∧
  callbacks_of i (trace (run_op o w)) = callbacks_of i (trace w).
Proof.
  intros [[Hnd Hlt] Hi] Hout.
  destruct o as [|r|fuel a c|from a|mapper cb|index]; simpl.
  - done.
  - unfold register. by destruct (isObj r).
  - destruct (dispatch_stable (silent i) fuel a c w) as [(_&_&_&El) Hs].
    rewrite El. auto.
  - by destruct (chain_world from a w) as [-> | ->].
  - unfold subscribe. destruct (isFunc cb); [|done]. simpl. split; [|done].
    intros [Hj|Hj]%elem_of_app; [done|].
    apply list_elem_of_singleton in Hj. lia.
  - unfold unsubscribe. destruct (isNumber index); [|done]. simpl.
    cbn [bind gets]. destruct (array_index (subscribers w) index); [|done].
    simpl. split; [|done]. intros Hin. by apply Hout, (remove_first_subseteq n).
Qed.

Lemma run_ops_detached `{Host} i ops w :
  indexed i w → i ∉ listeners w →
  (i ∉ listeners (run_ops ops w)) ∧
  callbacks_of i (trace (run_ops ops w)) = callbacks_of i (trace w).
Proof.
  revert w. induction ops as [|o ops IH]; intros w Hw Hout; simpl; [done|].
  destruct (run_op_detached i o w Hw Hout) as [Hout' Hcb].
  destruct (IH (run_op o w) (run_op_indexed i o w Hw) Hout') as [? ?].
  split; [done|congruence].
Qed.

Lemma construct_wf h s w : construct h s = Return w → wf_listeners w.
Proof.
  unfold construct. intros Hc.
  assert (listeners w = [] ∧ subscribers w = []) as [El Es].
  { destruct s; simpl in Hc; try done; by injection Hc as <-. }
  unfold wf_listeners. rewrite El. split; [constructor|by intros i ?%elem_of_nil].
Qed.

(** C7: [unsubscribe] throws the type error for whatever is not a number.
    On a store made by the constructor and used through its operations, an
    index that [subscribe] returned is the position of the new subscriber;
    unsubscribing it, at any later time, returns, and from then on the
    subscriber does not listen and its callback is not called again, whatever
    is called on the store afterwards. *)
Theorem unsubscribe_detaches `{Host} (h : heap) (s : value) (w0 w1 : world)
    (before between after : list op) (mapper cb index : value) :
  construct h s = Return w0 →
  subscribe mapper cb (run_ops before w0) = (Return index, w1) →
  (∀ v w, isNumber v = false →
          unsubscribe v w = (Throw (TypeError "Expected a Number"), w)) ∧
  ∃ (i : nat) (w3 : world),
    index = VNumber (Int (Z.of_nat i)) ∧
    subscribers w1 !! i = Some (Subscriber mapper cb) ∧
    unsubscribe index (run_ops between w1) = (Return tt, w3) ∧
    (i ∉ listeners (run_ops after w3)) ∧
    callbacks_of i (trace (run_ops after w3)) = callbacks_of i (trace w3).
Proof.
  intros Hc Hsub. split.
  { intros v w Hv. unfold unsubscribe. by rewrite Hv. }
  set (w := run_ops before w0) in *.
  assert (wf_listeners w) as Hwf by (eapply run_ops_wf, construct_wf; done).
  set (i := length (subscribers w)).
  assert (index = VNumber (Int (Z.of_nat i)) ∧
          w1 = set_listeners (listeners w ++ [i])
                 (set_subscribers (subscribers w ++ [Subscriber mapper cb]) w))
    as [-> ->].
  { revert Hsub. unfold subscribe. destruct (isFunc cb); [|done]. msimpl.
    simpl. rewrite length_app. simpl. intros [= <- <-]. split; [|done].
    do 2 f_equal. subst i. lia. }
  set (w1 := set_listeners _ _).
  assert (indexed i w1) as Hi1.
  { pose proof (run_op_wf (OpSubscribe mapper cb) w Hwf) as Hwf1.
    assert (run_op (OpSubscribe mapper cb) w = w1) as E.
    { simpl. revert Hsub. by intros ->. }
    rewrite E in Hwf1. split; [done|]. subst w1. simpl. rewrite length_app. simpl. lia. }
  pose proof (run_ops_indexed i between w1 Hi1) as [[Hnd2 Hlt2] Hi2].
  set (w2 := run_ops between w1) in *.
  set (w3 := set_listeners (remove_first i (listeners w2)) w2).
  assert (unsubscribe (VNumber (Int (Z.of_nat i))) w2 = (Return tt, w3)) as Hun.
  { unfold unsubscribe. simpl. cbn [bind gets]. unfold array_index.
    rewrite Nat2Z.id. rewrite bool_decide_true; [done|]. split; [lia|done]. }
  assert (indexed i w3) as Hi3.
  { split; [|done]. split; simpl.
    - by apply remove_first_NoDup.
    - intros j Hj. by apply Hlt2, (remove_first_subseteq i). }
  assert (i ∉ listeners w3) as Hout by (by apply remove_first_not_elem).
  exists i, w3. split_and!; try done.
  - subst w1. simpl. by apply list_lookup_middle.
  - by apply run_ops_detached.
  - by apply run_ops_detached.
Qed.

Lemma unsubscribe_detaches_witness :
  let before := [OpRegister (VRef 2)] in
  let between := [OpDispatch 3 (VRef 5) VUndefined] in
  let after := [OpDispatch 3 (VRef 6) VUndefined; OpDispatch 3 (VRef 5) VUndefined] in
  let w1 := (subscribe (VFunction 2) (VFunction 9)
               (run_ops (H := Demo.host) before Demo.store)).2 in
  (∀ v w, isNumber v = false →
          unsubscribe v w = (Throw (TypeError "Expected a Number"), w)) ∧
  ∃ (i : nat) (w3 : world),
    VNumber (Int 0) = VNumber (Int (Z.of_nat i)) ∧
    subscribers w1 !! i = Some (Subscriber (VFunction 2) (VFunction 9)) ∧
    unsubscribe (VNumber (Int 0)) (run_ops (H := Demo.host) between w1) = (Return tt, w3) ∧
    (i ∉ listeners (run_ops (H := Demo.host) after w3)) ∧
    callbacks_of i (trace (run_ops (H := Demo.host) after w3)) = callbacks_of i (trace w3).
Proof.
  intros before between after w1.
  apply (unsubscribe_detaches (H := Demo.host) Demo.objects (VRef 1) Demo.store w1
           before between after (VFunction 2) (VFunction 9) (VNumber (Int 0)));
    vm_compute; reflexivity.
Defined.

(** ** The steps of a dispatch *)

Lemma object_assign_two (a b : gmap string value) : object_assign [a; b] = b ∪ a.
Proof. unfold object_assign. simpl. by rewrite (right_id_L ∅ (∪)). Qed.

Lemma copy_action_eq action chained w :
  copy_action action chained w =
    (Return (VRef (alloc (OObject (action_copy (memory w) action chained)) (memory w)).1),
     set_memory (alloc (OObject (action_copy (memory w) action chained)) (memory w)).2 w).
Proof.
  unfold copy_action, new_object. msimpl. rewrite object_assign_two.
  rewrite <- insert_union_singleton_l. fold (action_copy (memory w) action chained).
  by destruct (alloc _ (memory w)).
Qed.

Lemma action_copy_type h action chained :
  action_copy h action chained !! "type" = own_props h action !! "type".
Proof. unfold action_copy. by rewrite lookup_insert_ne. Qed.

Lemma action_copy_payload h action chained :
  action_copy h action chained !! "payload" = own_props h action !! "payload".
Proof. unfold action_copy. by rewrite lookup_insert_ne. Qed.

Lemma action_copy_chained h action chained :
  action_copy h action chained !! "@@chained" = Some (chained_flag chained).
Proof. unfold action_copy. by rewrite lookup_insert_eq. Qed.

(** An own property that is a function is what [o[k]] finds. *)
Lemma lookup_own_function h o k f :
  get_property h o k = Return (VFunction f) →
  lookup_member h o k = Return (Own (VFunction f)).
Proof.
  destruct o as [| | | |s| |l]; simpl; try done.
  - destruct (String.eqb k "length"); [done|].
    by destruct (index_props (string_chars s) !! k) as [v|]; simpl; intros [= ->].
  - destruct (h !! l) as [[ps|vs]|]; try done.
    + by destruct (ps !! k) as [v|]; simpl; intros [= ->].
    + destruct (String.eqb k "length"); [done|].
      by destruct (index_props vs !! k) as [v|]; simpl; intros [= ->].
Qed.

(** On a record and under a key that [Object.prototype] does not have,
    [o[k]] is the own property. *)
Lemma lookup_record h l ps k :
  h !! l = Some (OObject ps) → object_prototype k = Missing →
  lookup_member h (VRef l) k = Return (from_option Own Missing (ps !! k)) ∧
  is_function (from_option Own Missing (ps !! k)) = isFunc (default VUndefined (ps !! k)).
Proof.
  intros Hl Hk. simpl. rewrite Hl, Hk. split; [done|]. by destruct (ps !! k).
Qed.

(** What [apply_reducer] does on a copy that is a record of the heap. *)
Lemma apply_reducer_eq `{Host} la ps w :
  memory w !! la = Some (OObject ps) →
  apply_reducer (VRef la) w =
    let key := to_string (default VUndefined (ps !! "type")) in
    match lookup_member (memory w) (reducer w) key with
    | Return r =>
        if is_function r then
          (let! next :=
             call_member (reducer w) r [state w; default VUndefined (ps !! "payload")] in
           setState next (VRef la) ;;; ret key) w
        else
          (Return key, log (Warn ("'" ++ key ++ "' action is not registered in reducer.")) w)
    | Throw e => (Throw e, w)
    | Exhausted => (Exhausted, w)
    end.
Proof.
  intros Hla. unfold apply_reducer.
  unfold bind at 1, get at 1. simpl. rewrite Hla.
  unfold bind at 1, gets at 1. unfold bind at 1, lookup at 1.
  destruct (lookup_member (memory w) (reducer w) _) as [r|e|]; try done.
  destruct (is_function r); [|done].
  rewrite bind_assoc. unfold bind at 1, gets at 1.
  rewrite bind_assoc. unfold bind at 1, get at 1. simpl. rewrite Hla.
  by rewrite bind_assoc.
Qed.

(** The reducer step is [apply_reducer] on the new copy. *)
Lemma reducer_step_eq `{Host} action chained w :
  reducer_step action chained w =
    apply_reducer (VRef (alloc (OObject (action_copy (memory w) action chained)) (memory w)).1)
      (set_memory (alloc (OObject (action_copy (memory w) action chained)) (memory w)).2 w).
Proof. unfold reducer_step. unfold bind. by rewrite copy_action_eq. Qed.

(** When the reducer step returns, its result is the key of the action. *)
Lemma reducer_step_key `{Host} action chained w k w' :
  reducer_step action chained w = (Return k, w') → k = action_key (memory w) action.
Proof.
  rewrite reducer_step_eq.
  rewrite (apply_reducer_eq _ (action_copy (memory w) action chained));
    [|apply alloc_lookup].
  rewrite action_copy_type. fold (action_key (memory w) action).
  cbn zeta. destruct (lookup_member _ _ _) as [r|e|]; try done.
  destruct (is_function r); [|by intros [= <- _]].
  unfold bind at 1. destruct (call_member _ r _ _) as [[next|e|] w1]; try done.
  unfold bind. destruct (setState next _ w1) as [[[]|e|] w2]; try done.
  by intros [= <- _].
Qed.

(** With nothing chained to the type of the action, [dispatch] ends in the
    world that the reducer step leaves. *)
Lemma dispatch_no_chain `{Host} fuel action chained w :
  chains w !! action_key (memory w) action = None →
  (dispatch (S fuel) action chained w).2 = (reducer_step action chained w).2 ∧
  ((dispatch (S fuel) action chained w).1 = Return tt ↔
   ∃ k, (reducer_step action chained w).1 = Return k).
Proof.
  intros Hk.
  assert (dispatch (S fuel) action chained w =
          match reducer_step action chained w with
          | (Return _, w1) => (Return tt, w1)
          | (Throw e, w1) => (Throw e, w1)
          | (Exhausted, w1) => (Exhausted, w1)
          end) as ->.
  { simpl. unfold bind at 1.
    pose proof (reducer_step_stable frame action chained w) as (_&Ec&_).
    destruct (reducer_step action chained w) as [[k|e|] w1] eqn:E; simpl in *; try done.
    apply reducer_step_key in E as ->. msimpl. by rewrite Ec, Hk. }
  destruct (reducer_step action chained w) as [[k|e|] w1]; simpl.
  - split; [done|]. split; [by exists k|done].
  - split; [done|]. split; [done|]. by intros [k ?].
  - split; [done|]. split; [done|]. by intros [k ?].
Qed.

(** ** The reducer step *)

(** C1, as the code has it. When the reducer table has, as a property of
    its own, a function for the type of the action, the reducer step commits
    exactly the result of that function on the state and the payload. When
    what the table has under the type is no function, neither of its own nor
    inherited from [Object.prototype], the reducer step gives the warning
    and returns, and leaves the state as it was. With nothing chained to the
    type, the state after the reducer step is the state when [dispatch] is
    over. *)
Theorem reducer_commits `{Host} (w : world) (action chained : value) :
  let k := action_key (memory w) action in
  let h1 := (alloc (OObject (action_copy (memory w) action chained)) (memory w)).2 in
  let registered := lookup_member h1 (reducer w) k in
  (∀ f, registered = Return (Own (VFunction f)) →
        let next := (call_function f h1 [state w; action_payload (memory w) action]).2 in
        state (reducer_step action chained w).2 = next ∧
        (chains w !! k = None →
         ∀ fuel, state (dispatch (S fuel) action chained w).2 = next)) ∧
  (∀ m, registered = Return m → is_function m = false →
        reducer_step action chained w =
          (Return k,
           log (Warn ("'" ++ k ++ "' action is not registered in reducer."))
             (set_memory h1 w)) ∧
        state (reducer_step action chained w).2 = state w ∧
        (chains w !! k = None →
         ∀ fuel, state (dispatch (S fuel) action chained w).2 = state w)).
Proof.
  intros k h1 registered.
  assert (reducer_step action chained w =
          match registered with
          | Return r =>
              if is_function r then
                (let! next :=
                   call_member (reducer w) r [state w; action_payload (memory w) action] in
                 setState next
                   (VRef (alloc (OObject (action_copy (memory w) action chained))
                            (memory w)).1) ;;;
                 ret k) (set_memory h1 w)
              else
                (Return k,
                 log (Warn ("'" ++ k ++ "' action is not registered in reducer."))
                   (set_memory h1 w))
          | Throw e => (Throw e, set_memory h1 w)
          | Exhausted => (Exhausted, set_memory h1 w)
          end) as Hstep.
  { rewrite reducer_step_eq.
    rewrite (apply_reducer_eq _ (action_copy (memory w) action chained));
      [|apply alloc_lookup].
    by rewrite action_copy_type, action_copy_payload. }
  split.
  - intros f Hf next.
    assert (state (reducer_step action chained w).2 = next) as Hnext.
    { rewrite Hstep, Hf. simpl. unfold bind at 1. simpl.
      fold h1. destruct (call_function f h1 _) as [h2 v] eqn:Ecall.
      subst next. simpl. unfold bind.
      pose proof (setState_state v
        (VRef (fresh (dom (memory w)))) (set_memory h2 (set_memory h1 w))) as Hs.
      by destruct (setState v _ _) as [[[]|e|] w2]. }
    split; [done|]. intros Hk fuel.
    by rewrite (proj1 (dispatch_no_chain fuel action chained w Hk)).
  - intros m Hm Hnf.
    assert (reducer_step action chained w =
            (Return k,
             log (Warn ("'" ++ k ++ "' action is not registered in reducer."))
               (set_memory h1 w))) as Hwarn
      by (by rewrite Hstep, Hm, Hnf).
    split_and!; [done|by rewrite Hwarn|].
    intros Hk fuel.
    by rewrite (proj1 (dispatch_no_chain fuel action chained w Hk)), Hwarn.
Qed.

Lemma reducer_commits_witness :
  let w := run_ops (H := Demo.host) [OpRegister (VRef 2)] Demo.store in
  let h1 := (alloc (OObject (action_copy (memory w) (VRef 5) VUndefined)) (memory w)).2 in
  let next := (call_function (Host := Demo.host) 0 h1 [VRef 1; VRef 4]).2 in
  (state (reducer_step (H := Demo.host) (VRef 5) VUndefined w).2 = next ∧
   state (dispatch (H := Demo.host) 1 (VRef 5) VUndefined w).2 = next) ∧
  (state (reducer_step (H := Demo.host) (VRef 3) VUndefined w).2 = VRef 1 ∧
   state (dispatch (H := Demo.host) 1 (VRef 3) VUndefined w).2 = VRef 1) ∧
  (reducer_step (H := Demo.host) (VRef 3) VUndefined w).1 = Return "LOG".
Proof.
  intros w h1 next.
  pose proof (reducer_commits (H := Demo.host) w (VRef 5) VUndefined) as (Hinc & _).
  pose proof (reducer_commits (H := Demo.host) w (VRef 3) VUndefined) as (_ & Hlog).
  destruct (Hlog Missing) as (Hwarn & Hstate & Hdispatch);
    [vm_compute; reflexivity|reflexivity|].
  split_and!.
  - apply (Hinc 0%nat). vm_compute; reflexivity.
  - apply (Hinc 0%nat); vm_compute; reflexivity.
  - exact Hstate.
  - apply Hdispatch. vm_compute; reflexivity.
  - by rewrite Hwarn.
Defined.

(** C1, as the specification has it, fails: the state when [dispatch] is over
    is the one the chained actions leave. With [SET] chained to [INC], the
    reducer of [INC] returns the record 10 and the state after the dispatch
    is 7; with [SET] chained to [LOG], which has no reducer, the dispatch of
    [LOG] changes the state from the record 1 to 7. *)
Lemma dispatch_state_after_chain :
  let w := run_ops (H := Demo.host)
             [OpRegister (VRef 2); OpChain (VString "INC") (VRef 6);
              OpChain (VString "LOG") (VRef 6)] Demo.store in
  let h1 := (alloc (OObject (action_copy (memory w) (VRef 5) VUndefined)) (memory w)).2 in
  (state w = VRef 1 ∧
   get_property (memory w) (reducer w) "INC" = Return (VFunction 0) ∧
   (call_function (Host := Demo.host) 0 h1 [state w; action_payload (memory w) (VRef 5)]).2
     = VRef 10 ∧
   (dispatch (H := Demo.host) 2 (VRef 5) VUndefined w).1 = Return tt ∧
   state (dispatch (H := Demo.host) 2 (VRef 5) VUndefined w).2 = VNumber (Int 7)) ∧
  (get_property (memory w) (reducer w) "LOG" = Return VUndefined ∧
   (dispatch (H := Demo.host) 2 (VRef 3) VUndefined w).1 = Return tt ∧
   state (dispatch (H := Demo.host) 2 (VRef 3) VUndefined w).2 = VNumber (Int 7)).
Proof. vm_compute. repeat split; reflexivity. Qed.

(** ** A store without reducer table *)

Lemma run_op_reducer `{Host} o w :
  is_register o = false → reducer (run_op o w) = reducer w.
Proof.
  intros Ho. destruct o as [|r|fuel a c|from a|mapper cb|index]; try done; simpl.
  - by destruct (dispatch_stable frame fuel a c w) as (Er&_).
  - by destruct (chain_world from a w) as [-> | ->].
  - unfold subscribe. by destruct (isFunc cb).
  - unfold unsubscribe. destruct (isNumber index); [|done]. simpl.
    cbn [bind gets]. by destruct (array_index (subscribers w) index).
Qed.

Lemma run_ops_reducer `{Host} ops w :
  (∀ o, o ∈ ops → is_register o = false) → reducer (run_ops ops w) = reducer w.
Proof.
  revert w. induction ops as [|o ops IH]; intros w Hops; simpl; [done|].
  rewrite IH.
  - apply run_op_reducer, Hops. left.
  - intros o' Ho'. apply Hops. by right.
Qed.

(** C4 does not hold of a store on which [register] was not called: the
    constructor leaves the field [reducer] undefined, and whatever else was
    called on the store, [dispatch] throws a type error when it reads the
    reducer of the type, whatever the action. It leaves the copy of the
    action in the heap and nothing else: no warning is given, and the chained
    actions are not dispatched. *)
Theorem dispatch_before_register_throws `{Host} (h : heap)
    (initialState action chained : value) (w0 : world) (ops : list op) (fuel : nat) :
  construct h initialState = Return w0 →
  (∀ o, o ∈ ops → is_register o = false) →
  let w := run_ops ops w0 in
  dispatch (S fuel) action chained w =
    (Throw (TypeError "Cannot read properties of undefined or null"),
     set_memory (alloc (OObject (action_copy (memory w) action chained)) (memory w)).2 w).
Proof.
  intros Hc Hops w.
  assert (reducer w = VUndefined) as Hr.
  { subst w. rewrite run_ops_reducer by done.
    unfold construct in Hc. destruct initialState; simpl in Hc; try done;
      by injection Hc as <-. }
  simpl. unfold bind at 1. rewrite reducer_step_eq.
  rewrite (apply_reducer_eq _ (action_copy (memory w) action chained));
    [|apply alloc_lookup].
  cbn zeta. change (reducer (set_memory _ w)) with (reducer w). rewrite Hr.
  reflexivity.
Qed.

Lemma dispatch_before_register_throws_witness :
  let w := run_ops (H := Demo.host)
             [OpChain (VString "INC") (VRef 3); OpSubscribe (VFunction 2) (VFunction 9)]
             Demo.store in
  dispatch (H := Demo.host) 2 (VRef 5) VUndefined w =
    (Throw (TypeError "Cannot read properties of undefined or null"),
     set_memory (alloc (OObject (action_copy (memory w) (VRef 5) VUndefined)) (memory w)).2 w).
Proof.
  apply (dispatch_before_register_throws (H := Demo.host) Demo.objects (VRef 1)).
  - reflexivity.
  - intros o Ho. apply elem_of_cons in Ho as [->|Ho]; [reflexivity|].
    apply list_elem_of_singleton in Ho as ->. reflexivity.
Defined.

(** ** The action is copied, not written *)



Lemma demo_host_pure : @PureHost Demo.host.
Proof.
  intros f h args. simpl.
  destruct f as [|[|[|[|f]]]]; simpl.
  - destruct args as [|s [|p [|q args]]]; try done. simpl.
    apply insert_subseteq, not_elem_of_dom, is_fresh.
  - by destruct args as [|s [|p args]].
  - by destruct args as [|s [|p args]].
  - by destruct args as [|s [|p [|q args]]].
  - done.
Qed.



(** ** Notification of the subscribers *)

Lemma run_subscriber_eq `{Host} i m cb act prev next w :
  subscribers w !! i = Some (Subscriber (VFunction m) cb) →
  run_subscriber i act prev next w =
    (Return tt,
     let w2 := set_memory (call_function m (call_function m (memory w) [next]).1 [prev]).1 w in
     let target := (call_function m (memory w) [next]).2 in
     let prevTarget := (call_function m (call_function m (memory w) [next]).1 [prev]).2 in
     if strict_equal target prevTarget then w2
     else log (Callback i cb act prevTarget target) w2).
Proof.
  intros Hi. unfold run_subscriber. unfold bind at 1, gets at 1. rewrite Hi.
  simpl. unfold bind at 1. destruct (call_function m (memory w) [next]) as [h1 target].
  simpl. unfold bind at 1. simpl. destruct (call_function m h1 [prev]) as [h2 prevTarget].
  simpl. by destruct (strict_equal target prevTarget).
Qed.

(** The listeners other than [i], when their mappers are functions, return
    and leave the registries and the calls of the callback of [i] alone. *)
Lemma notify_others `{Host} i ls act prev next w :
  i ∉ ls →
  (∀ j sub, j ∈ ls → subscribers w !! j = Some sub → isFunc (stateMapper sub) = true) →
  ∃ w', for_each ls (λ j, run_subscriber j act prev next) w = (Return tt, w') ∧
        frame w w' ∧ state w' = state w ∧
        ∃ t, trace w' = (trace w ++ t)%list ∧ callbacks_of i t = [].
Proof.
  revert w. induction ls as [|j ls IH]; intros w Hi Hfun; simpl.
  - exists w. split_and!; try done. exists []. by rewrite app_nil_r.
  - assert (j ≠ i) as Hji by (intros ->; apply Hi; left).
    assert (∃ w1, run_subscriber j act prev next w = (Return tt, w1) ∧
                  frame w w1 ∧ state w1 = state w ∧
                  ∃ t, trace w1 = (trace w ++ t)%list ∧ callbacks_of i t = [])
      as (w1 & E1 & F1 & S1 & t1 & T1 & C1).
    { destruct (subscribers w !! j) as [[mapper cb]|] eqn:Ej.
      - pose proof (Hfun j _ ltac:(left) Ej) as Hm. simpl in Hm.
        destruct mapper as [| | | | |m|]; try done.
        rewrite (run_subscriber_eq j m cb _ _ _ _ Ej). eexists. split; [done|].
        cbn zeta. destruct (strict_equal _ _); simpl.
        + split_and!; try done. exists []. by rewrite app_nil_r.
        + split_and!; try done. eexists [_]. split; [done|]. simpl.
          by rewrite bool_decide_false.
      - exists w. unfold run_subscriber. unfold bind, gets. rewrite Ej.
        split_and!; try done. exists []. by rewrite app_nil_r. }
    destruct (IH w1) as (w2 & E2 & F2 & S2 & t2 & T2 & C2).
    { intros Hin. apply Hi. by right. }
    { intros k sub Hk Hsub. apply (Hfun k sub); [by right|].
      destruct F1 as (_&_&Es&_). by rewrite <- Es. }
    exists w2. unfold bind. rewrite E1. split_and!; [done|by etrans|congruence|].
    exists (t1 ++ t2)%list. split.
    + by rewrite T2, T1, app_assoc.
    + by rewrite callbacks_of_app, C1, C2.
Qed.

(** What [subscribe] leaves: the new subscriber at the index it returns,
    listening after the listeners there were. *)
Lemma subscribe_listens mapper cb w :
  isFunc cb = true → wf_listeners w →
  let i := length (subscribers w) in
  ∃ w', subscribe mapper cb w = (Return (VNumber (Int (Z.of_nat i))), w') ∧
        subscribers w' !! i = Some (Subscriber mapper cb) ∧
        listeners w' = (listeners w ++ [i])%list ∧
        i ∉ listeners w.
Proof.
  intros Hcb [_ Hlt] i. unfold subscribe. rewrite Hcb. msimpl. simpl.
  exists (set_listeners (listeners w ++ [i])
            (set_subscribers (subscribers w ++ [Subscriber mapper cb]) w)).
  split_and!.
  - rewrite length_app. simpl. do 4 f_equal. subst i. lia.
  - simpl. by apply list_lookup_middle.
  - done.
  - intros Hin. apply Hlt in Hin. subst i. lia.
Qed.

(** A dispatch whose action has a reducer runs the transition step once in
    its reducer step, on the copy of the action and the result of the
    reducer. *)
Lemma reducer_step_transition `{Host} w action chained f :
  let k := action_key (memory w) action in
  let act := VRef (alloc (OObject (action_copy (memory w) action chained)) (memory w)).1 in
  let h1 := (alloc (OObject (action_copy (memory w) action chained)) (memory w)).2 in
  let result := call_function f h1 [state w; action_payload (memory w) action] in
  get_property h1 (reducer w) k = Return (VFunction f) →
  reducer_step action chained w =
    (setState result.2 act ;;; ret k) (set_memory result.1 w).
Proof.
  intros k act h1 result Hf.
  rewrite reducer_step_eq.
  rewrite (apply_reducer_eq _ (action_copy (memory w) action chained));
    [|apply alloc_lookup].
  rewrite action_copy_type, action_copy_payload. cbn zeta.
  fold (action_key (memory w) action). fold k. fold h1.
  change (reducer (set_memory h1 w)) with (reducer w).
  change (memory (set_memory h1 w)) with h1.
  rewrite (lookup_own_function _ _ _ _ Hf). simpl.
  unfold bind at 1. simpl. fold (action_payload (memory w) action). fold result.
  by destruct result.
Qed.

(** C3: a listening subscriber made of the mapper [m] and the callback [cb]
    is served once by every transition, that is once by every dispatch, root
    or chained, whose action has a reducer. The transition step sets the state,
    emits the change and returns; when the turn of the subscriber comes, the
    mapper is applied to the new and then to the previous state, and the
    callback is called, once and with the action and the two results, when
    the results differ by [!==]; it is not called when they do not. *)
Theorem subscriber_called_on_change `{Host} (w : world) (i : nat) (m : fn_id)
    (cb next act : value) (l1 l2 : list nat) :
  subscribers w !! i = Some (Subscriber (VFunction m) cb) →
  listeners w = (l1 ++ i :: l2)%list →
  i ∉ l1 → i ∉ l2 →
  (∀ j sub, j ∈ listeners w → subscribers w !! j = Some sub →
            isFunc (stateMapper sub) = true) →
  let prev := state w in
  let w0 := log (Change act prev next) (set_state next w) in
  let wi := (for_each l1 (λ j, run_subscriber j act prev next) w0).2 in
  let target := (call_function m (memory wi) [next]).2 in
  let prevTarget := (call_function m (call_function m (memory wi) [next]).1 [prev]).2 in
  ∃ w' t,
    setState next act w = (Return tt, w') ∧
    state w' = next ∧
    trace w' = (trace w ++ Change act prev next :: t)%list ∧
    callbacks_of i t =
      if strict_equal target prevTarget then []
      else [Callback i cb act prevTarget target].
Proof.
  intros Hi Hls Hi1 Hi2 Hfun prev w0 wi.
  destruct (notify_others i l1 act prev next w0 Hi1) as (w1 & E1 & F1 & S1 & t1 & T1 & C1).
  { intros j sub Hj. apply Hfun. rewrite Hls. apply elem_of_app. by left. }
  assert (wi = w1) as Hwi by (subst wi; by rewrite E1).
  clearbody wi. subst wi. intros target prevTarget.
  assert (subscribers w1 !! i = Some (Subscriber (VFunction m) cb)) as Hi'.
  { destruct F1 as (_&_&->&_). done. }
  pose proof (run_subscriber_eq i m cb act prev next w1 Hi') as E2.
  cbn zeta in E2. fold target in E2. fold prevTarget in E2.
  set (w1' := set_memory _ w1) in E2.
  set (w2 := if strict_equal target prevTarget then w1'
             else log (Callback i cb act prevTarget target) w1') in E2.
  destruct (notify_others i l2 act prev next w2 Hi2) as (w3 & E3 & F3 & S3 & t3 & T3 & C3).
  { intros j sub Hj Hsub. apply (Hfun j sub).
    - rewrite Hls. apply elem_of_app. right. by right.
    - destruct F1 as (_&_&Es&_). rewrite <- Hsub. subst w2 w1'.
      destruct (strict_equal target prevTarget); simpl; by rewrite Es. }
  assert (state w2 = next ∧
          ∃ t2, trace w2 = (trace w1 ++ t2)%list ∧
                callbacks_of i t2 =
                  if strict_equal target prevTarget then []
                  else [Callback i cb act prevTarget target]) as (S2 & t2 & T2 & C2).
  { subst w2 w1'. destruct (strict_equal target prevTarget); simpl.
    - split; [done|]. exists []. by rewrite app_nil_r.
    - split; [done|]. eexists [_]. split; [done|]. simpl. by rewrite bool_decide_true. }
  exists w3, (t1 ++ t2 ++ t3)%list. split_and!.
  - unfold setState, emit_change. msimpl. fold prev. fold w0.
    change (listeners w0) with (listeners w). rewrite Hls.
    rewrite for_each_app. unfold bind at 1. rewrite E1. simpl.
    unfold bind at 1. rewrite E2. exact E3.
  - congruence.
  - rewrite T3, T2, T1. subst w0. simpl. by rewrite <- !app_assoc.
  - rewrite !callbacks_of_app, C1, C3, app_nil_r. done.
Qed.

Lemma subscriber_called_on_change_witness :
  let w := run_ops (H := Demo.host)
             [OpRegister (VRef 2); OpSubscribe (VFunction 1) (VFunction 8);
              OpSubscribe (VFunction 2) (VFunction 9)] Demo.store in
  ∃ w' t,
    setState (H := Demo.host) (VRef 4) (VRef 5) w = (Return tt, w') ∧
    state w' = VRef 4 ∧
    trace w' = (trace w ++ Change (VRef 5) (VRef 1) (VRef 4) :: t)%list ∧
    callbacks_of 1 t = [Callback 1 (VFunction 9) (VRef 5) (VNumber (Int 0)) VUndefined].
Proof.
  intros w.
  apply (subscriber_called_on_change (H := Demo.host) w 1 2 (VFunction 9) (VRef 4) (VRef 5)
           [0%nat] []).
  - vm_compute; reflexivity.
  - vm_compute; reflexivity.
  - by intros [= ]%list_elem_of_singleton.
  - by intros ?%elem_of_nil.
  - intros j sub Hj. vm_compute in Hj.
    apply elem_of_cons in Hj as [->|Hj]; [vm_compute; by intros [= <-]|].
    apply list_elem_of_singleton in Hj as ->. vm_compute. by intros [= <-].
Defined.

(** ** The order of the chained actions *)

Lemma own_props_extends h h' v :
  h ⊆ h' → allocated h v → own_props h' v = own_props h v.
Proof.
  intros Hsub Hv. destruct v as [| | | | | |l]; try done. simpl in *.
  destruct Hv as [o Ho]. by rewrite Ho, (lookup_weaken _ _ _ _ Ho Hsub).
Qed.

Lemma action_key_extends `{Host} h h' v :
  h ⊆ h' → allocated h v → action_key h' v = action_key h v.
Proof. intros Hsub Hv. unfold action_key. by rewrite (own_props_extends h h'). Qed.

Section DispatchOrder.
Context `{PureHost}.
Variables (h0 : heap) (registry : gmap string (list value)).
Hypothesis registry_allocated :
  ∀ k actions a, registry !! k = Some actions → a ∈ actions → allocated h0 a.

Lemma for_each_dispatch_order fuel actions w :
  (∀ a chained w,
     chains w = registry → h0 ⊆ memory w → allocated h0 a →
     dispatch fuel a chained w =
       for_each (dispatch_order fuel (action_key h0) registry a chained) run_step w) →
  (∀ a, a ∈ actions → allocated h0 a) →
  chains w = registry → h0 ⊆ memory w →
  for_each actions (λ a, dispatch fuel a (VBool true)) w =
    for_each (flat_map (λ a, dispatch_order fuel (action_key h0) registry a (VBool true))
                actions) run_step w.
Proof.
  intros IH. revert w. induction actions as [|a actions IHa]; intros w Ha Hc Hm; simpl.
  - reflexivity.
  - rewrite for_each_app. unfold bind.
    rewrite <- (IH a (VBool true) w Hc Hm (Ha a ltac:(left))).
    pose proof (dispatch_stable grows fuel a (VBool true) w) as [(_&Ec&_&_) Hg].
    destruct (dispatch fuel a (VBool true) w) as [[[]|e|] w1]; simpl in *; try done.
    apply IHa.
    + intros x Hx. apply Ha. by right.
    + congruence.
    + by etrans.
Qed.

Lemma dispatch_in_order fuel action chained w :
  chains w = registry → h0 ⊆ memory w → allocated h0 action →
  dispatch fuel action chained w =
    for_each (dispatch_order fuel (action_key h0) registry action chained) run_step w.
Proof.
  revert action chained w. induction fuel as [|fuel IH]; intros action chained w Hc Hm Ha.
  - reflexivity.
  - cbn [dispatch dispatch_order for_each run_step].
    rewrite bind_assoc. unfold bind at 1 3.
    pose proof (reducer_step_stable grows action chained w) as [(_&Ec&_&_) Hg].
    destruct (reducer_step action chained w) as [[k|e|] w1] eqn:E; simpl in *; try done.
    apply reducer_step_key in E. rewrite (action_key_extends h0) in E by done. subst k.
    rewrite bind_ret_l. msimpl. rewrite Ec, Hc.
    destruct (registry !! action_key h0 action) as [actions|] eqn:Ek; simpl; [|done].
    apply for_each_dispatch_order.
    + apply IH.
    + intros a Hin. by eapply registry_allocated.
    + congruence.
    + by etrans.
Qed.
End DispatchOrder.

Lemma dispatch_order_leaf fuel key_of registry action chained :
  registry !! key_of action = None →
  dispatch_order (S fuel) key_of registry action chained = [Some (action, chained)].
Proof. intros Hk. simpl. by rewrite Hk. Qed.

Lemma dispatch_order_one_level fuel key_of registry action chained actions :
  registry !! key_of action = Some actions →
  (∀ a, a ∈ actions → registry !! key_of a = None) →
  dispatch_order (S (S fuel)) key_of registry action chained =
    Some (action, chained) :: ((λ a, Some (a, VBool true)) <$> actions).
Proof.
  intros Hk Hleaf. cbn [dispatch_order]. rewrite Hk. f_equal.
  cbn [default from_option id]. clear Hk.
  induction actions as [|a actions IH]; [done|].
  cbn [flat_map fmap list_fmap]. rewrite (Hleaf a) by left. simpl. f_equal.
  apply IH. intros x Hx. apply Hleaf. by right.
Qed.

(** With a registry in which every chained action has a type of lower rank
    than the type it is chained to, fuel above the rank of the action is
    enough: no dispatch of the order is cut. *)
Lemma dispatch_order_enough (rank : string → nat) fuel key_of registry action chained :
  (∀ k actions a, registry !! k = Some actions → a ∈ actions →
                  (rank (key_of a) < rank k)%nat) →
  (rank (key_of action) < fuel)%nat →
  None ∉ dispatch_order fuel key_of registry action chained.
Proof.
  intros Hrank. revert action chained.
  induction fuel as [|fuel IH]; intros action chained Hlt; [lia|].
  cbn [dispatch_order]. intros [?|Hin]%elem_of_cons; [done|].
  destruct (registry !! key_of action) as [actions|] eqn:Ek; simpl in Hin;
    [|by apply elem_of_nil in Hin].
  apply list_elem_of_In, in_flat_map in Hin as (a & Ha%list_elem_of_In & Hin%list_elem_of_In).
  apply (IH a (VBool true)); [|done].
  pose proof (Hrank _ _ _ Ek Ha). lia.
Qed.

Lemma notify_returns `{Host} ls act prev next w :
  (∀ j sub, j ∈ ls → subscribers w !! j = Some sub → isFunc (stateMapper sub) = true) →
  ∃ w', for_each ls (λ j, run_subscriber j act prev next) w = (Return tt, w').
Proof.
  intros Hfun.
  destruct (notify_others (fresh ls) ls act prev next w (infinite_is_fresh ls) Hfun)
    as (w' & E & _).
  by exists w'.
Qed.

Lemma get_property_object h l ps k :
  h !! l = Some (OObject ps) →
  get_property h (VRef l) k = Return (default VUndefined (ps !! k)).
Proof. intros Hl. simpl. by rewrite Hl. Qed.

(** What the reducer step does on a store whose table is a record, for an
    action whose type [Object.prototype] has no member for: the function
    that the table owns under the type is applied, and without one the
    warning is given. *)
Lemma reducer_step_plain `{Host} action chained w lr table :
  let k := action_key (memory w) action in
  let act := VRef (alloc (OObject (action_copy (memory w) action chained)) (memory w)).1 in
  let h1 := (alloc (OObject (action_copy (memory w) action chained)) (memory w)).2 in
  reducer w = VRef lr →
  memory w !! lr = Some (OObject table) →
  object_prototype k = Missing →
  reducer_step action chained w =
    match table !! k with
    | Some (VFunction f) =>
        let result := call_function f h1 [state w; action_payload (memory w) action] in
        (setState result.2 act ;;; ret k) (set_memory result.1 w)
    | _ =>
        (Return k, log (Warn ("'" ++ k ++ "' action is not registered in reducer."))
                     (set_memory h1 w))
    end.
Proof.
  intros k act h1 Hr Hlr Hk.
  assert (h1 !! lr = Some (OObject table)) as Hlr1.
  { eapply lookup_weaken; [exact Hlr|apply alloc_extends]. }
  destruct (table !! k) as [r|] eqn:Er.
  - destruct (decide (isFunc r = true)) as [Hf|Hnf].
    + destruct r as [| | | | |f|]; try done.
      apply reducer_step_transition. fold h1 k. rewrite Hr.
      by rewrite (get_property_object _ _ _ _ Hlr1), Er.
    + apply not_true_is_false in Hnf.
      assert (reducer_step action chained w =
              (Return k, log (Warn ("'" ++ k ++ "' action is not registered in reducer."))
                           (set_memory h1 w))) as ->;
        [|by destruct r].
      rewrite reducer_step_eq.
      rewrite (apply_reducer_eq _ (action_copy (memory w) action chained));
        [|apply alloc_lookup].
      rewrite action_copy_type. fold (action_key (memory w) action). fold k. cbn zeta.
      change (reducer (set_memory _ w)) with (reducer w). rewrite Hr.
      change (memory (set_memory _ w)) with h1.
      destruct (lookup_record h1 lr table k Hlr1 Hk) as [-> _].
      rewrite Er. simpl. by rewrite Hnf.
  - rewrite reducer_step_eq.
    rewrite (apply_reducer_eq _ (action_copy (memory w) action chained));
      [|apply alloc_lookup].
    rewrite action_copy_type. fold (action_key (memory w) action). fold k. cbn zeta.
    change (reducer (set_memory _ w)) with (reducer w). rewrite Hr.
    change (memory (set_memory _ w)) with h1.
    destruct (lookup_record h1 lr table k Hlr1 Hk) as [-> _].
    by rewrite Er.
Qed.

Lemma setState_returns `{Host} next act w :
  (∀ j sub, j ∈ listeners w → subscribers w !! j = Some sub →
            isFunc (stateMapper sub) = true) →
  ∃ w', setState next act w = (Return tt, w').
Proof.
  intros Hfun. unfold setState, emit_change. msimpl.
  by apply notify_returns.
Qed.

(** On a store that is ready the reducer step returns, for an action whose
    type is no member of [Object.prototype]. *)
Lemma reducer_step_returns `{Host} action chained w :
  ready w → object_prototype (action_key (memory w) action) = Missing →
  ∃ w', reducer_step action chained w = (Return (action_key (memory w) action), w').
Proof.
  intros [(lr & table & Hr & Hlr) Hfun] Hk.
  rewrite (reducer_step_plain action chained w lr table Hr Hlr Hk).
  destruct (table !! action_key (memory w) action) as [[| | | | |f|]|]; try by eexists.
  cbn zeta. unfold bind.
  edestruct (setState_returns) as [w' ->]; [|by eexists].
  exact Hfun.
Qed.

Lemma ready_grows w w' : grows w w' → ready w → ready w'.
Proof.
  intros [(Er&_&Es&El) Hm] [(lr & o & Hr & Hlr) Hfun]. split.
  - exists lr, o. split; [congruence|]. by eapply lookup_weaken.
  - rewrite El, Es. exact Hfun.
Qed.

Lemma plain_steps_tail `{Host} h step steps :
  plain_steps h (step :: steps) → plain_steps h steps.
Proof. intros Hp a c Hin. apply (Hp a c). by right. Qed.

(** On a store that is ready, an order without cut dispatch is run to its
    end. *)
Lemma run_steps_return `{PureHost} h0 steps w :
  ready w → h0 ⊆ memory w → plain_steps h0 steps → None ∉ steps →
  ∃ w', for_each steps run_step w = (Return tt, w').
Proof.
  revert w. induction steps as [|[[a c]|] steps IH]; intros w Hw Hm Hp Hn; simpl.
  - by exists w.
  - destruct (Hp a c ltac:(left)) as [Ha Hk].
    destruct (reducer_step_returns a c w Hw) as (w1 & E).
    { by rewrite (action_key_extends h0). }
    pose proof (reducer_step_stable grows a c w) as Hg. rewrite E in Hg.
    unfold bind at 1. unfold bind at 1. rewrite E. msimpl.
    apply IH.
    + by eapply ready_grows.
    + etrans; [exact Hm|apply Hg].
    + by eapply plain_steps_tail.
    + intros Hin. apply Hn. by right.
  - exfalso. apply Hn. by left.
Qed.

Lemma dispatch_order_elem fuel key_of registry action chained a c :
  Some (a, c) ∈ dispatch_order fuel key_of registry action chained →
  a = action ∨ ∃ k actions, registry !! k = Some actions ∧ a ∈ actions.
Proof.
  revert action chained. induction fuel as [|fuel IH]; intros action chained; simpl.
  - by intros [=]%list_elem_of_singleton.
  - intros [[= -> ->]|Hin]%elem_of_cons; [by left|]. right.
    destruct (registry !! key_of action) as [actions|] eqn:Ek; simpl in Hin;
      [|by apply elem_of_nil in Hin].
    apply list_elem_of_In, in_flat_map in Hin as (x & Hx%list_elem_of_In & Hin%list_elem_of_In).
    destruct (IH _ _ Hin) as [->|?]; [|done]. by exists (key_of action), actions.
Qed.

(** What [chain] leaves when it returns. *)
Lemma chain_returns `{Host} from action w w1 :
  chain from action w = (Return tt, w1) →
  w1 = set_chains (<[to_string from :=
                     (default [] (chains w !! to_string from) ++ [action])%list]> (chains w)) w.
Proof.
  unfold chain. msimpl.
  destruct (chains w !! to_string from) eqn:E; simpl.
  - intros [= <-]. by rewrite E.
  - destruct (object_prototype (to_string from)); simpl; intros [= <-]; by rewrite E.
Qed.

(** Under a key that [Object.prototype] has no member for, [chain]
    returns. *)
Lemma chain_plain `{Host} from action w :
  object_prototype (to_string from) = Missing →
  chain from action w =
    (Return tt,
     set_chains (<[to_string from :=
                   (default [] (chains w !! to_string from) ++ [action])%list]> (chains w)) w).
Proof.
  intros Hk. unfold chain. msimpl. rewrite Hk.
  by destruct (chains w !! to_string from) eqn:E; simpl; rewrite E.
Qed.

(** Without a reducer table, [dispatch] throws when it reads the reducer of
    the type and leaves the copy of the action in the heap. *)
Lemma dispatch_without_table `{Host} fuel action chained w :
  reducer w = VUndefined ∨ reducer w = VNull →
  dispatch (S fuel) action chained w =
    (Throw (TypeError "Cannot read properties of undefined or null"),
     set_memory (alloc (OObject (action_copy (memory w) action chained)) (memory w)).2 w).
Proof.
  intros Hr. simpl. unfold bind at 1. rewrite reducer_step_eq.
  rewrite (apply_reducer_eq _ (action_copy (memory w) action chained));
    [|apply alloc_lookup].
  cbn zeta. change (reducer (set_memory _ w)) with (reducer w).
  by destruct Hr as [-> | ->].
Qed.

Lemma construct_reducer h s w : construct h s = Return w → reducer w = VUndefined.
Proof.
  unfold construct. intros Hc. destruct s; simpl in Hc; try done; by injection Hc as <-.
Qed.

(** C2 does not hold of a store on which [register] was not called. After
    [chain] has put an action behind the ones chained to a key, the dispatch
    of an action of that type throws the type error of the missing reducer
    table before it reads the chain registry: the chained action is not
    dispatched. The state, the trace and the registry are the ones there
    were; the copy of the dispatched action is all that is new. *)
Theorem chained_action_lost_before_register `{Host} (h : heap)
    (initialState from b action chained : value) (w0 w1 : world) (ops : list op)
    (fuel : nat) :
  construct h initialState = Return w0 →
  (∀ o, o ∈ ops → is_register o = false) →
  chain from b (run_ops ops w0) = (Return tt, w1) →
  action_key (memory w1) action = to_string from →
  (∃ before, chains w1 !! action_key (memory w1) action = Some (before ++ [b])%list) ∧
  dispatch (S fuel) action chained w1 =
    (Throw (TypeError "Cannot read properties of undefined or null"),
     set_memory (alloc (OObject (action_copy (memory w1) action chained)) (memory w1)).2 w1).
Proof.
  intros Hc Hops Hchain Hk.
  apply chain_returns in Hchain as ->. split.
  - eexists. simpl in Hk |- *. rewrite Hk. apply lookup_insert_eq.
  - apply dispatch_without_table. left. simpl.
    rewrite run_ops_reducer by done. by eapply construct_reducer.
Qed.

Lemma chained_action_lost_before_register_witness :
  let w1 := run_ops (H := Demo.host) [OpChain (VString "INC") (VRef 6)] Demo.store in
  (∃ before, chains w1 !! "INC" = Some (before ++ [VRef 6])%list) ∧
  dispatch (H := Demo.host) 2 (VRef 5) VUndefined w1 =
    (Throw (TypeError "Cannot read properties of undefined or null"),
     set_memory
       (alloc (OObject (action_copy (memory w1) (VRef 5) VUndefined)) (memory w1)).2 w1).
Proof.
  intros w1.
  apply (chained_action_lost_before_register (H := Demo.host) Demo.objects (VRef 1)
           (VString "INC") (VRef 6) (VRef 5) VUndefined Demo.store w1 [] 1).
  - reflexivity.
  - by intros o ?%elem_of_nil.
  - vm_compute; reflexivity.
  - vm_compute; reflexivity.
Defined.

(** ** Two scenarios *)

(** A store with the state [{count: 0}], the reducer of [INC], [LOG] chained
    to [INC] and no reducer of [LOG]: the dispatch of [INC] with the amount 5
    returns, the state is a new record with the count 5, there is one warning,
    for [LOG], and the subscriber of the count is called once, for the change
    that [INC] made. *)
Example scenario_inc_then_log :
  let w := run_ops (H := Demo.host)
             [OpRegister (VRef 2); OpChain (VString "INC") (VRef 3);
              OpSubscribe (VFunction 2) (VFunction 9)] Demo.store in
  let r := dispatch (H := Demo.host) 2 (VRef 5) VUndefined w in
  r.1 = Return tt ∧
  own_props (memory r.2) (state r.2) = {["count" := VNumber (Int 5)]} ∧
  trace r.2 =
    [Change (VRef 9) (VRef 1) (VRef 10);
     Callback 0 (VFunction 9) (VRef 9) (VNumber (Int 0)) (VNumber (Int 5));
     Warn "'LOG' action is not registered in reducer."] ∧
  own_props (memory r.2) (VRef 9) =
    <["@@chained" := VBool false]> (own_props (memory w) (VRef 5)).
Proof. vm_compute. repeat split; reflexivity. Qed.

(** Two dispatches of the same action in a row: a subscriber of the whole
    state, which the reducer of [SET] replaces by the number 7, is called for
    the first and not for the second. *)
Example scenario_same_projection :
  let w := run_ops (H := Demo.host)
             [OpRegister (VRef 2); OpSubscribe (VFunction 1) (VFunction 9)] Demo.store in
  let w1 := run_ops (H := Demo.host) [OpDispatch 1 (VRef 6) VUndefined] w in
  let w2 := run_ops (H := Demo.host) [OpDispatch 1 (VRef 6) VUndefined] w1 in
  callbacks_of 0 (trace w1) =
    [Callback 0 (VFunction 9) (VRef 9) (VRef 1) (VNumber (Int 7))] ∧
  callbacks_of 0 (trace w2) = callbacks_of 0 (trace w1) ∧
  changes (trace w2) =
    [Change (VRef 9) (VRef 1) (VNumber (Int 7));
     Change (VRef 10) (VNumber (Int 7)) (VNumber (Int 7))].
Proof. vm_compute. repeat split; reflexivity. Qed.

(** * Further properties of the class *)

(** ** What [dispatch] leaves alone *)

(** X1: [dispatch] never registers and never removes anything: whatever the
    action, its chains and its outcome, the reducer table, the chain
    registry, the subscribers and the listeners are the ones there were. *)
Theorem dispatch_keeps_registries `{Host} (fuel : nat) (action chained : value)
    (w : world) :
  let w' := (dispatch fuel action chained w).2 in
  reducer w' = reducer w ∧ chains w' = chains w ∧
  subscribers w' = subscribers w ∧ listeners w' = listeners w.
Proof. apply (dispatch_stable frame). Qed.

(** ** The chain registry only grows *)

Lemma run_op_chains `{Host} o w k old :
  chains w !! k = Some old →
  ∃ more, chains (run_op o w) !! k = Some (old ++ more)%list.
Proof.
  intros Hk. destruct o as [|r|fuel a c|from a|mapper cb|index]; simpl.
  - exists []. by rewrite app_nil_r.
  - exists []. rewrite app_nil_r. unfold register. by destruct (isObj r).
  - exists []. rewrite app_nil_r.
    by destruct (dispatch_stable frame fuel a c w) as (_&->&_).
  - destruct (chain_world from a w) as [-> | ->]; [exists []; by rewrite app_nil_r|].
    simpl. destruct (decide (to_string from = k)) as [->|Hne].
    + exists [a]. by rewrite lookup_insert_eq, Hk.
    + exists []. by rewrite lookup_insert_ne, app_nil_r.
  - exists []. rewrite app_nil_r. unfold subscribe. by destruct (isFunc cb).
  - exists []. rewrite app_nil_r. unfold unsubscribe.
    destruct (isNumber index); [|done]. simpl. cbn [bind gets].
    by destruct (array_index (subscribers w) index).
Qed.

(** X3: Nothing unchains: over any sequence of calls on the store, the actions
    chained to a key stay chained to it, in their order and before the ones
    chained later. *)
Theorem chains_only_grow `{Host} (ops : list op) (w : world) (k : string)
    (old : list value) :
  chains w !! k = Some old →
  ∃ more, chains (run_ops ops w) !! k = Some (old ++ more)%list.
Proof.
  revert w old. induction ops as [|o ops IH]; intros w old Hk; simpl.
  - exists []. by rewrite app_nil_r.
  - destruct (run_op_chains o w k old Hk) as [m1 H1].
    destruct (IH _ _ H1) as [m2 H2].
    exists (m1 ++ m2)%list. by rewrite app_assoc.
Qed.

Lemma chains_only_grow_witness :
  let w := run_ops (H := Demo.host) [OpChain (VString "INC") (VRef 3)] Demo.store in
  let ops := [OpRegister (VRef 2); OpDispatch 3 (VRef 5) VUndefined;
              OpChain (VString "INC") (VRef 6); OpUnsubscribe (VNumber (Int 0))] in
  ∃ more, chains (run_ops (H := Demo.host) ops w) !! "INC" = Some ([VRef 3] ++ more)%list.
Proof.
  intros w ops. apply (chains_only_grow (H := Demo.host)). vm_compute; reflexivity.
Defined.

(** ** A chain that comes back to its own type *)

Lemma allocated_extends h h' v : h ⊆ h' → allocated h v → allocated h' v.
Proof.
  intros Hsub. destruct v as [| | | | | |l]; try done. simpl.
  intros [o Ho]. exists o. by eapply lookup_weaken.
Qed.

(** X4: No cycle is detected: when an action is the first one chained to its own
    type, on a store where the reducer step returns (a record as reducer
    table, mappers that are functions, and a type that is no member of
    [Object.prototype]), no depth is enough for its dispatch, which goes on
    dispatching the action. *)
Theorem dispatch_self_chain_exhausts `{PureHost} (fuel : nat) (action chained : value)
    (rest : list value) (w : world) :
  ready w →
  allocated (memory w) action →
  object_prototype (action_key (memory w) action) = Missing →
  chains w !! action_key (memory w) action = Some (action :: rest) →
  (dispatch fuel action chained w).1 = Exhausted.
Proof.
  revert chained w. induction fuel as [|fuel IH]; intros chained w Hw Ha Hp Hk; [done|].
  change (dispatch (S fuel) action chained)
    with (let! key := reducer_step action chained in fan_out fuel key).
  destruct (reducer_step_returns action chained w Hw Hp) as (w1 & E).
  pose proof (reducer_step_stable grows action chained w) as Hg. rewrite E in Hg.
  unfold bind. rewrite E. unfold fan_out. msimpl.
  simpl in Hg. pose proof Hg as [(_&Ec&_&_) Hm]. rewrite Ec, Hk.
  cbn [for_each]. unfold bind.
  assert ((dispatch fuel action (VBool true) w1).1 = Exhausted) as Hex.
  { apply IH.
    - by eapply ready_grows.
    - by eapply allocated_extends.
    - by rewrite (action_key_extends (memory w)).
    - rewrite (action_key_extends (memory w)) by done. by rewrite Ec. }
  destruct (dispatch fuel action (VBool true) w1) as [[[]|e|] w2]; by simpl in Hex.
Qed.

Lemma dispatch_self_chain_exhausts_witness :
  let w := run_ops (H := Demo.host)
             [OpRegister (VRef 2); OpChain (VString "INC") (VRef 5)] Demo.store in
  (dispatch (H := Demo.host) 40 (VRef 5) VUndefined w).1 = Exhausted.
Proof.
  intros w.
  apply (@dispatch_self_chain_exhausts Demo.host demo_host_pure 40 (VRef 5) VUndefined []).
  - split.
    + eexists _, _. split; vm_compute; reflexivity.
    + intros j sub Hj. vm_compute in Hj. by apply elem_of_nil in Hj.
  - eexists. vm_compute; reflexivity.
  - vm_compute; reflexivity.
  - vm_compute; reflexivity.
Defined.

(** ** A reducer table that is [null] *)

(** X5: [null] passes the guard of [register], since its [typeof] is ['object'],
    and replaces the table there was. On the store this leaves, every
    dispatch throws a type error when it reads the reducer of the type: the
    state and the trace stay as they were and the chained actions are not
    dispatched. *)
Theorem register_null_disables_dispatch `{Host} (w : world) (fuel : nat)
    (action chained : value) :
  register VNull w = (Return tt, set_reducer VNull w) ∧
  dispatch (S fuel) action chained (set_reducer VNull w) =
    (Throw (TypeError "Cannot read properties of undefined or null"),
     set_memory (alloc (OObject (action_copy (memory w) action chained)) (memory w)).2
       (set_reducer VNull w)).
Proof.
  split; [done|]. simpl. unfold bind at 1. rewrite reducer_step_eq.
  by rewrite (apply_reducer_eq _ (action_copy (memory w) action chained));
    [|apply alloc_lookup].
Qed.

(** ** The indices that [subscribe] returns *)

Lemma run_op_subscription `{Host} o w :
  length (subscribers (run_op o w)) =
    (length (subscribers w) + if is_subscription o then 1 else 0)%nat.
Proof.
  destruct o as [|r|fuel a c|from a|mapper cb|index]; simpl.
  - lia.
  - unfold register. destruct (isObj r); simpl; lia.
  - destruct (dispatch_stable frame fuel a c w) as (_&_&->&_). lia.
  - destruct (chain_world from a w) as [-> | ->]; simpl; lia.
  - unfold subscribe. destruct (isFunc cb); simpl; [|lia].
    rewrite length_app. simpl. lia.
  - unfold unsubscribe. destruct (isNumber index); simpl; [|lia].
    cbn [bind gets]. destruct (array_index (subscribers w) index); simpl; lia.
Qed.

Lemma run_ops_subscriptions `{Host} ops w :
  length (subscribers (run_ops ops w)) =
    (length (subscribers w) + length (List.filter is_subscription ops))%nat.
Proof.
  revert w. induction ops as [|o ops IH]; intros w; simpl; [lia|].
  rewrite IH, run_op_subscription. destruct (is_subscription o); simpl; lia.
Qed.

(** X6: [subscribe] throws the type error for a callback that is not a function,
    whatever the mapper, and leaves the store as it was. Otherwise it returns
    the number of subscribers registered before, on a store made by the
    constructor the number of calls of [subscribe] that did not throw: an
    index is not given twice, whatever was unsubscribed in between. *)
Theorem subscribe_counts `{Host} (h : heap) (s : value) (w0 : world) (ops : list op)
    (mapper cb : value) :
  construct h s = Return w0 →
  let w := run_ops ops w0 in
  let n := length (List.filter is_subscription ops) in
  length (subscribers w) = n ∧
  (isFunc cb = false →
   subscribe mapper cb w = (Throw (TypeError "Expected a Function"), w)) ∧
  (isFunc cb = true →
   (subscribe mapper cb w).1 = Return (VNumber (Int (Z.of_nat n))) ∧
   subscribers (subscribe mapper cb w).2 !! n = Some (Subscriber mapper cb)).
Proof.
  intros Hc w n.
  assert (length (subscribers w) = n) as Hn.
  { subst w n. rewrite run_ops_subscriptions.
    assert (subscribers w0 = []) as ->; [|done].
    unfold construct in Hc. destruct s; simpl in Hc; try done; by injection Hc as <-. }
  split_and!; [done| |].
  - intros Hcb. unfold subscribe. by rewrite Hcb.
  - intros Hcb. unfold subscribe. rewrite Hcb. msimpl. simpl. split.
    + rewrite length_app, Hn. simpl. do 3 f_equal. lia.
    + rewrite <- Hn. by apply list_lookup_middle.
Qed.

Lemma subscribe_counts_witness :
  let ops := [OpSubscribe (VFunction 1) (VFunction 8); OpSubscribe (VFunction 1) VNull;
              OpUnsubscribe (VNumber (Int 0)); OpSubscribe (VFunction 2) (VFunction 9);
              OpUnsubscribe (VNumber (Int 1))] in
  let w := run_ops (H := Demo.host) ops Demo.store in
  length (subscribers w) = 2%nat ∧
  subscribe (VFunction 1) (VString "cb") w = (Throw (TypeError "Expected a Function"), w) ∧
  (subscribe VNull (VFunction 7) w).1 = Return (VNumber (Int 2)).
Proof.
  intros ops w.
  pose proof (subscribe_counts (H := Demo.host) Demo.objects (VRef 1) Demo.store ops
                (VFunction 1) (VString "cb") eq_refl) as (Hn & Hthrow & _).
  pose proof (subscribe_counts (H := Demo.host) Demo.objects (VRef 1) Demo.store ops
                VNull (VFunction 7) eq_refl) as (_ & _ & Hret).
  split_and!.
  - exact Hn.
  - apply Hthrow. reflexivity.
  - apply Hret. reflexivity.
Defined.

(** ** What [unsubscribe] removes *)

Lemma remove_first_absent i ls : i ∉ ls → remove_first i ls = ls.
Proof.
  induction ls as [|j ls IH]; simpl; [done|]. intros Hi.
  rewrite bool_decide_false by (intros ->; apply Hi; left).
  f_equal. apply IH. intros Hin. apply Hi. by right.
Qed.

Lemma filter_other_absent i (ls : list nat) : i ∉ ls → filter (λ j, j ≠ i) ls = ls.
Proof.
  induction ls as [|j ls IH]; [done|]. intros Hi.
  rewrite filter_cons_True by (intros ->; apply Hi; left).
  f_equal. apply IH. intros Hin. apply Hi. by right.
Qed.

Lemma remove_first_filter i ls :
  NoDup ls → remove_first i ls = filter (λ j, j ≠ i) ls.
Proof.
  induction 1 as [|j ls Hj Hnd IH]; simpl; [done|].
  case_bool_decide as Hji.
  - subst j. rewrite filter_cons_False by (intros Hne; by apply Hne).
    by rewrite filter_other_absent.
  - rewrite filter_cons_True by done. by rewrite IH.
Qed.

(** X7: On a store made by the constructor, [unsubscribe] with an index that
    [subscribe] has returned takes that one listener away and nothing else:
    the other listeners stay, in their order, and the array of subscribers
    keeps its length, so that the other indices stay valid. A second call
    with the same index returns without any effect. *)
Theorem unsubscribe_keeps_others `{Host} (h : heap) (s : value) (w0 : world)
    (ops : list op) (z : Z) :
  construct h s = Return w0 →
  let w := run_ops ops w0 in
  0 ≤ z < Z.of_nat (length (subscribers w)) →
  let w' := set_listeners (filter (λ j, j ≠ Z.to_nat z) (listeners w)) w in
  unsubscribe (VNumber (Int z)) w = (Return tt, w') ∧
  unsubscribe (VNumber (Int z)) w' = (Return tt, w').
Proof.
  intros Hc w Hz w'.
  assert (wf_listeners w) as [Hnd _] by (eapply run_ops_wf, construct_wf; done).
  assert (array_index (subscribers w) (VNumber (Int z)) = Some (Z.to_nat z)) as Hidx.
  { unfold array_index. rewrite bool_decide_true; [done|]. split; lia. }
  assert (∀ w1, unsubscribe (VNumber (Int z)) w1 =
                 off_change (array_index (subscribers w1) (VNumber (Int z))) w1) as Hun
    by done.
  split.
  - rewrite Hun, Hidx. simpl. unfold modify. by rewrite remove_first_filter.
  - rewrite Hun. change (subscribers w') with (subscribers w). rewrite Hidx. simpl.
    unfold modify. rewrite remove_first_absent; [done|].
    simpl. intros [Hne _]%list_elem_of_filter. by apply Hne.
Qed.

Lemma unsubscribe_keeps_others_witness :
  let ops := [OpSubscribe (VFunction 1) (VFunction 7); OpSubscribe (VFunction 2) (VFunction 8);
              OpSubscribe (VFunction 1) (VFunction 9)] in
  let w := run_ops (H := Demo.host) ops Demo.store in
  let w' := set_listeners [0%nat; 2%nat] w in
  unsubscribe (VNumber (Int 1)) w = (Return tt, w') ∧
  unsubscribe (VNumber (Int 1)) w' = (Return tt, w').
Proof.
  intros ops w w'.
  apply (unsubscribe_keeps_others (H := Demo.host) Demo.objects (VRef 1) Demo.store ops 1).
  - reflexivity.
  - vm_compute. split; [discriminate|reflexivity].
Defined.

(** ** The order of the notifications *)

Lemma sorted_sublist (k l : list nat) :
  k `sublist_of` l → StronglySorted lt l → StronglySorted lt k.
Proof.
  induction 1 as [|x k l Hkl IH|x k l Hkl IH]; intros Hs.
  - constructor.
  - apply StronglySorted_inv in Hs as [Hs Hx]. constructor; [by apply IH|].
    apply Forall_forall. intros y Hy.
    rewrite Forall_forall in Hx. by apply Hx, (sublist_subseteq _ _ Hkl).
  - apply StronglySorted_inv in Hs as [Hs _]. by apply IH.
Qed.

Lemma remove_first_sublist i ls : remove_first i ls `sublist_of` ls.
Proof.
  induction ls as [|j ls IH]; simpl; [done|].
  case_bool_decide; [by apply sublist_cons_r; left|by apply sublist_skip].
Qed.

Lemma run_op_sorted `{Host} o w :
  wf_listeners w → StronglySorted lt (listeners w) →
  StronglySorted lt (listeners (run_op o w)).
Proof.
  intros [Hnd Hlt] Hs.
  destruct o as [|r|fuel a c|from a|mapper cb|index]; simpl.
  - done.
  - unfold register. by destruct (isObj r).
  - by destruct (dispatch_stable frame fuel a c w) as (_&_&_&->).
  - by destruct (chain_world from a w) as [-> | ->].
  - unfold subscribe. destruct (isFunc cb); [|done]. simpl.
    apply StronglySorted_app. split_and!; [|done|repeat constructor].
    intros i j Hi ->%list_elem_of_singleton. by apply Hlt.
  - unfold unsubscribe. destruct (isNumber index); [|done]. simpl.
    cbn [bind gets]. destruct (array_index (subscribers w) index); [|done].
    simpl. eapply sorted_sublist; [apply remove_first_sublist|done].
Qed.

Lemma run_ops_sorted `{Host} ops w :
  wf_listeners w → StronglySorted lt (listeners w) →
  StronglySorted lt (listeners (run_ops ops w)).
Proof.
  revert w. induction ops as [|o ops IH]; intros w Hw Hs; simpl; [done|].
  apply IH; [by apply run_op_wf|by apply run_op_sorted].
Qed.

Lemma served_same ls w w' : trace w' = trace w → served ls w w'.
Proof. intros E. exists []. rewrite app_nil_r. split_and!; [done..|apply sublist_nil_l]. Qed.

Lemma served_refl ls w : served ls w w.
Proof. by apply served_same. Qed.

Lemma run_subscriber_served `{Host} j act prev next w :
  served [j] w (run_subscriber j act prev next w).2.
Proof.
  unfold run_subscriber. unfold bind at 1, gets at 1.
  destruct (subscribers w !! j) as [[mp cb]|]; [|apply served_refl].
  destruct mp as [| | | | |m|]; try apply served_refl.
  simpl. unfold bind at 1. simpl.
  destruct (call_function m (memory w) [next]) as [h1 target]. simpl.
  unfold bind at 1. simpl.
  destruct (call_function m h1 [prev]) as [h2 prevTarget]. simpl.
  destruct (strict_equal target prevTarget); simpl; [by apply served_same|].
  by eexists [_].
Qed.

Lemma notify_served `{Host} ls act prev next w :
  served ls w (for_each ls (λ j, run_subscriber j act prev next) w).2.
Proof.
  revert w. induction ls as [|j ls IH]; intros w; simpl; [apply served_refl|].
  unfold bind.
  pose proof (run_subscriber_served j act prev next w) as (t1 & E1 & A1 & S1).
  assert (served (j :: ls) w (run_subscriber j act prev next w).2) as Hj.
  { exists t1. split_and!; [done..|].
    etrans; [exact S1|apply sublist_skip, sublist_nil_l]. }
  destruct (run_subscriber j act prev next w) as [[[]|e|] w1]; simpl in *; try done.
  destruct (IH w1) as (t2 & E2 & A2 & S2).
  exists (t1 ++ t2)%list. split_and!.
  - by rewrite E2, E1, app_assoc.
  - unfold announcements in *. by rewrite List.filter_app, A1, A2.
  - unfold callback_ids in *. rewrite omap_app. by apply (sublist_app _ [j]).
Qed.

(** X8: On a store made by the constructor the listeners are in the order of
    their indices, which is the order in which they subscribed, and a
    transition step calls the callbacks in that order, each at most once,
    after the change event and before anything else is recorded. *)
Theorem callbacks_in_subscription_order `{Host} (h : heap) (s : value) (w0 : world)
    (ops : list op) (next act : value) :
  construct h s = Return w0 →
  let w := run_ops ops w0 in
  StronglySorted lt (listeners w) ∧
  ∃ t, trace (setState next act w).2 = (trace w ++ Change act (state w) next :: t)%list ∧
       announcements t = [] ∧
       callback_ids t `sublist_of` listeners w ∧
       StronglySorted lt (callback_ids t).
Proof.
  intros Hc w.
  assert (StronglySorted lt (listeners w)) as Hs.
  { apply run_ops_sorted; [by eapply construct_wf|].
    assert (listeners w0 = []) as ->; [|constructor].
    unfold construct in Hc. destruct s; simpl in Hc; try done; by injection Hc as <-. }
  split; [done|].
  destruct (notify_served (listeners w) act (state w) next
              (log (Change act (state w) next) (set_state next w))) as (t & Et & At & St).
  exists t. split_and!; [|done..|by eapply sorted_sublist].
  unfold setState, emit_change. msimpl.
  change (listeners (log _ (set_state next w))) with (listeners w).
  rewrite Et. simpl. by rewrite <- app_assoc.
Qed.

Lemma callbacks_in_subscription_order_witness :
  let ops := [OpSubscribe (VFunction 1) (VFunction 7); OpSubscribe (VFunction 2) (VFunction 8);
              OpSubscribe (VFunction 1) (VFunction 9); OpUnsubscribe (VNumber (Int 1))] in
  let w := run_ops (H := Demo.host) ops Demo.store in
  StronglySorted lt (listeners w) ∧
  ∃ t, trace (setState (H := Demo.host) (VRef 4) (VRef 5) w).2 =
         (trace w ++ Change (VRef 5) (state w) (VRef 4) :: t)%list ∧
       announcements t = [] ∧
       callback_ids t `sublist_of` listeners w ∧
       StronglySorted lt (callback_ids t).
Proof.
  intros ops w.
  apply (callbacks_in_subscription_order (H := Demo.host) Demo.objects (VRef 1) Demo.store).
  reflexivity.
Defined.

(** ** A state mapper that is not a function *)

(** X9: [subscribe] does not look at the state mapper. With a listening
    subscriber whose mapper is not a function, the dispatch of an action that
    has a reducer throws a type error, and it does so after the transition:
    the new state is committed, the change event is emitted and the listeners
    before that subscriber are served, while the listeners after it are not
    and the chained actions are not dispatched. *)
Theorem broken_mapper_stops_dispatch `{Host} (w : world) (fuel : nat)
    (action chained : value) (f : fn_id) (i : nat) (mapper cb : value)
    (l1 l2 : list nat) :
  let k := action_key (memory w) action in
  let act := VRef (alloc (OObject (action_copy (memory w) action chained)) (memory w)).1 in
  let h1 := (alloc (OObject (action_copy (memory w) action chained)) (memory w)).2 in
  let result := call_function f h1 [state w; action_payload (memory w) action] in
  let w1 := log (Change act (state w) result.2)
              (set_state result.2 (set_memory result.1 w)) in
  let w2 := (for_each l1 (λ j, run_subscriber j act (state w) result.2) w1).2 in
  get_property h1 (reducer w) k = Return (VFunction f) →
  listeners w = (l1 ++ i :: l2)%list →
  subscribers w !! i = Some (Subscriber mapper cb) →
  isFunc mapper = false →
  (∀ j sub, j ∈ l1 → subscribers w !! j = Some sub → isFunc (stateMapper sub) = true) →
  dispatch (S fuel) action chained w = (Throw (TypeError "is not a function"), w2) ∧
  state w2 = result.2.
Proof.
  intros k act h1 result w1 w2 Hf Hls Hi Hm Hfun.
  destruct (notify_others (fresh l1) l1 act (state w) result.2 w1 (infinite_is_fresh l1))
    as (w2' & E1 & (_&_&Es&_) & S1 & _); [exact Hfun|].
  assert (w2 = w2') as -> by (subst w2; by rewrite E1).
  split; [|by rewrite S1].
  change (dispatch (S fuel) action chained)
    with (let! key := reducer_step action chained in fan_out fuel key).
  unfold bind at 1. rewrite (reducer_step_transition w action chained f Hf).
  fold k act h1 result. unfold bind at 1.
  assert (setState result.2 act (set_memory result.1 w) =
          (Throw (TypeError "is not a function"), w2')) as ->; [|done].
  unfold setState, emit_change. msimpl.
  change (state (set_memory result.1 w)) with (state w). fold w1.
  change (listeners w1) with (listeners w). rewrite Hls.
  rewrite for_each_app. unfold bind at 1. rewrite E1. cbn [for_each].
  unfold bind at 1. unfold run_subscriber. unfold bind at 1, gets at 1.
  rewrite Es. change (subscribers w1) with (subscribers w). rewrite Hi. simpl.
  unfold bind at 1. by destruct mapper.
Qed.

Lemma broken_mapper_stops_dispatch_witness :
  let w := run_ops (H := Demo.host)
             [OpRegister (VRef 2); OpChain (VString "INC") (VRef 6);
              OpSubscribe (VFunction 2) (VFunction 8); OpSubscribe (VString "count") (VFunction 9);
              OpSubscribe (VFunction 1) (VFunction 7)] Demo.store in
  ∃ w2, dispatch (H := Demo.host) 3 (VRef 5) VUndefined w =
          (Throw (TypeError "is not a function"), w2) ∧
        state w2 = VRef 10 ∧
        trace w2 = [Change (VRef 9) (VRef 1) (VRef 10);
                    Callback 0 (VFunction 8) (VRef 9) (VNumber (Int 0)) (VNumber (Int 5))].
Proof.
  intros w.
  destruct (broken_mapper_stops_dispatch (H := Demo.host) w 2 (VRef 5) VUndefined 0 1
              (VString "count") (VFunction 9) [0%nat] [2%nat]) as [Hd Hs].
  - vm_compute; reflexivity.
  - vm_compute; reflexivity.
  - vm_compute; reflexivity.
  - reflexivity.
  - intros j sub ->%list_elem_of_singleton. vm_compute. by intros [= <-].
  - eexists. split_and!; [exact Hd| |]; vm_compute; reflexivity.
Defined.

(** ** The copy that [getState] returns is shallow *)

Lemma getState_eq (w : world) :
  getState w =
    (Return (VRef (alloc (OObject (own_props (memory w) (state w))) (memory w)).1),
     set_memory (alloc (OObject (own_props (memory w) (state w))) (memory w)).2 w).
Proof.
  unfold getState, new_object. msimpl. rewrite object_assign_one.
  by destruct (alloc _ (memory w)).
Qed.

(** X10: The copy holds the values of the properties of the state, references
    included: an object that a property of the state refers to is shared by
    the copy, and what is written to it through the copy is what the state
    refers to afterwards. *)
Theorem getState_is_shallow (w : world) (l l2 : loc) (ps qs : gmap string value)
    (k k2 : string) (v : value) :
  state w = VRef l →
  memory w !! l = Some (OObject ps) →
  ps !! k = Some (VRef l2) →
  memory w !! l2 = Some (OObject qs) →
  l2 ≠ l →
  ∃ l' w',
    getState w = (Return (VRef l'), w') ∧
    l' ≠ l ∧ l' ≠ l2 ∧
    get_property (memory w') (VRef l') k = Return (VRef l2) ∧
    let h := set_property (memory w') l2 k2 v in
    get_property h (state w') k = Return (VRef l2) ∧
    h !! l2 = Some (OObject (<[k2 := v]> qs)).
Proof.
  intros Hs Hl Hk Hl2 Hne.
  assert (own_props (memory w) (state w) = ps) as Hps by (rewrite Hs; simpl; by rewrite Hl).
  pose proof (alloc_fresh (OObject ps) (memory w)) as Hfresh.
  pose proof (alloc_lookup (OObject ps) (memory w)) as Hcopy.
  pose proof (alloc_extends (OObject ps) (memory w)) as Hsub.
  eexists _, _. split; [apply getState_eq|]. rewrite Hps. cbn [memory set_memory state].
  set (l' := (alloc (OObject ps) (memory w)).1) in *.
  set (h' := (alloc (OObject ps) (memory w)).2) in *.
  assert (h' !! l = Some (OObject ps)) as Hl' by (by eapply lookup_weaken).
  assert (h' !! l2 = Some (OObject qs)) as Hl2' by (by eapply lookup_weaken).
  split_and!.
  - intros E. rewrite E in Hfresh. congruence.
  - intros E. rewrite E in Hfresh. congruence.
  - simpl. by rewrite Hcopy, Hk.
  - rewrite Hs. simpl. rewrite set_property_other by done. by rewrite Hl', Hk.
  - unfold set_property. rewrite Hl2'. by rewrite lookup_insert_eq.
Qed.

Lemma getState_is_shallow_witness :
  let w := World Demo.objects (VRef 5) VUndefined ∅ [] [] [] in
  ∃ l' w',
    getState w = (Return (VRef l'), w') ∧
    l' ≠ 5%positive ∧ l' ≠ 4%positive ∧
    get_property (memory w') (VRef l') "payload" = Return (VRef 4) ∧
    let h := set_property (memory w') 4 "amount" (VNumber (Int 6)) in
    get_property h (state w') "payload" = Return (VRef 4) ∧
    h !! 4%positive =
      Some (OObject (<["amount" := VNumber (Int 6)]> {["amount" := VNumber (Int 5)]})).
Proof.
  intros w.
  apply (getState_is_shallow w 5 4
           (<["type" := VString "INC"]> {["payload" := VRef 4]})
           {["amount" := VNumber (Int 5)]} "payload" "amount" (VNumber (Int 6)));
    try (vm_compute; reflexivity).
  discriminate.
Defined.

(** X11: Every call of [getState] makes a copy of its own: two calls in a row
    return two different references to records with the same properties,
    those of the state. For a state that is [null], [undefined], a boolean,
    a number or a function the copies are empty records. *)
Theorem getState_twice (w : world) :
  let ps := own_props (memory w) (state w) in
  ∃ l1 l2 w2,
    (let! a := getState in let! b := getState in ret (a, b)) w =
      (Return (VRef l1, VRef l2), w2) ∧
    l1 ≠ l2 ∧
    memory w2 !! l1 = Some (OObject ps) ∧
    memory w2 !! l2 = Some (OObject ps) ∧
    state w2 = state w ∧
    ((∀ l, state w ≠ VRef l) → (∀ s, state w ≠ VString s) → ps = ∅).
Proof.
  intros ps.
  set (l1 := (alloc (OObject ps) (memory w)).1).
  set (w1 := set_memory (alloc (OObject ps) (memory w)).2 w).
  set (ps1 := own_props (memory w1) (state w1)).
  set (l2 := (alloc (OObject ps1) (memory w1)).1).
  set (w2 := set_memory (alloc (OObject ps1) (memory w1)).2 w1).
  pose proof (alloc_fresh (OObject ps) (memory w)) as Hf1.
  pose proof (alloc_lookup (OObject ps) (memory w)) as Hl1.
  pose proof (alloc_extends (OObject ps) (memory w)) as Hs1.
  pose proof (alloc_fresh (OObject ps1) (memory w1)) as Hf2.
  pose proof (alloc_lookup (OObject ps1) (memory w1)) as Hl2.
  pose proof (alloc_extends (OObject ps1) (memory w1)) as Hs2.
  fold l1 in Hf1, Hl1. fold l2 in Hf2, Hl2.
  change (memory w1 !! l1 = Some (OObject ps)) in Hl1.
  change (memory w ⊆ memory w1) in Hs1.
  change (memory w2 !! l2 = Some (OObject ps1)) in Hl2.
  change (memory w1 ⊆ memory w2) in Hs2.
  assert (ps1 = ps) as Hps.
  { subst ps1 ps. change (state w1) with (state w).
    destruct (state w) as [| | | | | |l]; try done. cbn [own_props].
    destruct (memory w !! l) as [o|] eqn:El.
    - by rewrite (lookup_weaken _ _ _ _ El Hs1).
    - destruct (decide (l = l1)) as [e|Hn].
      + replace (memory w1 !! l) with (memory w1 !! l1) by (by rewrite <- e).
        rewrite Hl1. cbn [own_props]. by rewrite El.
      + subst w1. simpl. by rewrite lookup_insert_ne, El. }
  exists l1, l2, w2. split_and!.
  - unfold bind at 1. rewrite getState_eq. fold ps l1 w1.
    unfold bind at 1. rewrite getState_eq. by fold ps1 l2 w2.
  - intros E. rewrite <- E in Hf2. congruence.
  - by apply (lookup_weaken _ _ _ _ Hl1 Hs2).
  - by rewrite <- Hps.
  - done.
  - intros Href Hstr. subst ps. destruct (state w); try done.
    + by destruct (Hstr s).
    + by destruct (Href l).
Qed.

Lemma getState_twice_witness :
  let w := World Demo.objects VNull VUndefined ∅ [] [] [] in
  ∃ l1 l2 w2,
    (let! a := getState in let! b := getState in ret (a, b)) w =
      (Return (VRef l1, VRef l2), w2) ∧
    l1 ≠ l2 ∧
    memory w2 !! l1 = Some (OObject ∅) ∧
    memory w2 !! l2 = Some (OObject ∅).
Proof.
  intros w.
  destruct (getState_twice w) as (l1 & l2 & w2 & E & Hne & H1 & H2 & _ & Hempty).
  rewrite Hempty in H1, H2 by discriminate.
  exists l1, l2, w2. split_and!; done.
Defined.

(** ** An action without type *)

Lemma own_props_set_property h l k v a :
  a ≠ VRef l → own_props (set_property h l k v) a = own_props h a.
Proof.
  intros Hne. destruct a as [| | | | | |l']; try done. simpl.
  rewrite set_property_other; [done|]. by intros ->.
Qed.

Lemma own_props_delete_property h l k a :
  a ≠ VRef l → own_props (delete_property h l k) a = own_props h a.
Proof.
  intros Hne. destruct a as [| | | | | |l']; try done. simpl.
  rewrite delete_property_other; [done|]. by intros ->.
Qed.

(** The reducer step commits the result of the function that the table has
    for the key of the action. *)
Lemma reducer_step_commits `{Host} w action chained f :
  let h1 := (alloc (OObject (action_copy (memory w) action chained)) (memory w)).2 in
  get_property h1 (reducer w) (action_key (memory w) action) = Return (VFunction f) →
  state (reducer_step action chained w).2 =
    (call_function f h1 [state w; action_payload (memory w) action]).2.
Proof.
  intros h1 Hf. rewrite (reducer_step_transition w action chained f Hf).
  unfold bind.
  match goal with |- context [setState ?n ?a ?w1] =>
    pose proof (setState_state n a w1) as Hs; destruct (setState n a w1) as [[[]|e|] w2]
  end; done.
Qed.

(** The reducer step warns and returns when the table is a record without a
    function for the key of the action, a key that [Object.prototype] has no
    member for. *)
Lemma reducer_step_warns `{Host} w action chained lr table :
  let k := action_key (memory w) action in
  let h1 := (alloc (OObject (action_copy (memory w) action chained)) (memory w)).2 in
  reducer w = VRef lr →
  memory w !! lr = Some (OObject table) →
  object_prototype k = Missing →
  isFunc (default VUndefined (table !! k)) = false →
  reducer_step action chained w =
    (Return k, log (Warn ("'" ++ k ++ "' action is not registered in reducer."))
                 (set_memory h1 w)).
Proof.
  intros k h1 Hr Hlr Hk Hnf.
  rewrite (reducer_step_plain action chained w lr table Hr Hlr Hk). fold k.
  by destruct (table !! k) as [[]|].
Qed.



(** ** The reducer table is the caller's object *)

(** X13: [register] keeps the table by reference and [dispatch] reads it anew each
    time: a reducer that the caller puts into the table object after
    [register] is the one the next dispatch of its type applies, and a
    reducer that the caller deletes from it is unregistered, unless
    [Object.prototype] has a member of that name, which the table inherits
    again. *)
Theorem reducer_table_is_shared `{Host} (w : world) (lr : loc)
    (table : gmap string value) (action chained : value) (f : fn_id) :
  reducer w = VRef lr →
  memory w !! lr = Some (OObject table) →
  action ≠ VRef lr →
  let k := action_key (memory w) action in
  let added := set_memory (set_property (memory w) lr k (VFunction f)) w in
  let deleted := set_memory (delete_property (memory w) lr k) w in
  let h1 := (alloc (OObject (action_copy (memory w) action chained)) (memory deleted)).2 in
  state (reducer_step action chained added).2 =
    (call_function f
       (alloc (OObject (action_copy (memory w) action chained)) (memory added)).2
       [state w; action_payload (memory w) action]).2 ∧
  lookup_member h1 (VRef lr) k = Return (object_prototype k) ∧
  (object_prototype k = Missing →
   reducer_step action chained deleted =
     (Return k,
      log (Warn ("'" ++ k ++ "' action is not registered in reducer."))
        (set_memory h1 deleted))).
Proof.
  intros Hr Hlr Hne k added deleted h1.
  assert (own_props (memory added) action = own_props (memory w) action) as Ha
    by (by apply own_props_set_property).
  assert (own_props (memory deleted) action = own_props (memory w) action) as Hd
    by (by apply own_props_delete_property).
  assert (memory added !! lr = Some (OObject (<[k := VFunction f]> table))) as Hla.
  { subst added. simpl. unfold set_property. rewrite Hlr. apply lookup_insert_eq. }
  assert (memory deleted !! lr = Some (OObject (delete k table))) as Hld.
  { subst deleted. simpl. unfold delete_property. rewrite Hlr. apply lookup_insert_eq. }
  assert (action_copy (memory added) action chained = action_copy (memory w) action chained)
    as Hca by (unfold action_copy; by rewrite Ha).
  assert (action_copy (memory deleted) action chained = action_copy (memory w) action chained)
    as Hcd by (unfold action_copy; by rewrite Hd).
  assert (action_key (memory added) action = k) as Hka
    by (unfold action_key; by rewrite Ha).
  assert (action_key (memory deleted) action = k) as Hkd
    by (unfold action_key; by rewrite Hd).
  split_and!.
  - pose proof (reducer_step_commits added action chained f) as Hc.
    cbn zeta in Hc. rewrite Hca, Hka in Hc. unfold action_payload in Hc.
    rewrite Ha in Hc. apply Hc.
    change (reducer added) with (reducer w). rewrite Hr.
    erewrite get_property_object;
      [|eapply lookup_weaken; [exact Hla|apply alloc_extends]].
    by rewrite lookup_insert_eq.
  - simpl.
    assert (h1 !! lr = Some (OObject (delete k table))) as ->.
    { eapply lookup_weaken; [exact Hld|apply alloc_extends]. }
    by rewrite lookup_delete_eq.
  - intros Hk.
    pose proof (reducer_step_warns deleted action chained lr (delete k table)) as Hw.
    cbn zeta in Hw. rewrite Hcd, Hkd in Hw. apply Hw; [done..|].
    by rewrite lookup_delete_eq.
Qed.

Lemma reducer_table_is_shared_witness :
  let w := run_ops (H := Demo.host) [OpRegister (VRef 8)] Demo.store in
  let added := set_memory (set_property (memory w) 8 "INC" (VFunction 0)) w in
  let deleted := set_memory (delete_property (memory w) 8 "SET") w in
  own_props (memory (reducer_step (H := Demo.host) (VRef 5) VUndefined added).2)
    (state (reducer_step (H := Demo.host) (VRef 5) VUndefined added).2)
    = {["count" := VNumber (Int 5)]} ∧
  (reducer_step (H := Demo.host) (VRef 6) VUndefined deleted).1 = Return "SET" ∧
  state (reducer_step (H := Demo.host) (VRef 6) VUndefined deleted).2 = VRef 1.
Proof.
  intros w added deleted.
  destruct (reducer_table_is_shared (H := Demo.host) w 8 {["SET" := VFunction 3]}
              (VRef 5) VUndefined 0) as (Hadd & _ & _);
    [reflexivity|vm_compute; reflexivity|discriminate|].
  destruct (reducer_table_is_shared (H := Demo.host) w 8 {["SET" := VFunction 3]}
              (VRef 6) VUndefined 0) as (_ & _ & Hdel);
    [reflexivity|vm_compute; reflexivity|discriminate|].
  split_and!.
  - change (set_memory (set_property (memory w) 8 (action_key (H := Demo.host) (memory w) (VRef 5))
              (VFunction 0)) w) with added in Hadd.
    rewrite Hadd. vm_compute. reflexivity.
  - change (set_memory (delete_property (memory w) 8
              (action_key (H := Demo.host) (memory w) (VRef 6))) w) with deleted in Hdel.
    rewrite Hdel; [reflexivity|vm_compute; reflexivity].
  - change (set_memory (delete_property (memory w) 8
              (action_key (H := Demo.host) (memory w) (VRef 6))) w) with deleted in Hdel.
    rewrite Hdel; [reflexivity|vm_compute; reflexivity].
Defined.

(** ** One announcement for each dispatch *)

Lemma announcements_app t1 t2 :
  announcements (t1 ++ t2) = (announcements t1 ++ announcements t2)%list.
Proof. apply List.filter_app. Qed.

(** On a store that is ready, the reducer step of an action whose type is no
    member of [Object.prototype] returns after one announcement: the change
    event of its transition, or its warning. *)
Lemma reducer_step_announces `{Host} action chained w :
  ready w → object_prototype (action_key (memory w) action) = Missing →
  ∃ k w' t, reducer_step action chained w = (Return k, w') ∧
            trace w' = (trace w ++ t)%list ∧ length (announcements t) = 1%nat.
Proof.
  intros [(lr & table & Hr & Hlr) Hfun] Hk.
  rewrite (reducer_step_plain action chained w lr table Hr Hlr Hk).
  set (h1 := (alloc _ (memory w)).2). set (la := (alloc _ (memory w)).1).
  assert (∃ k w' t,
            (Return (action_key (memory w) action),
             log (Warn ("'" ++ action_key (memory w) action ++
                        "' action is not registered in reducer."))
               (set_memory h1 w)) = (Return k, w') ∧
            trace w' = (trace w ++ t)%list ∧ length (announcements t) = 1%nat) as Hwarn
    by (by eexists _, _, [_]).
  destruct (table !! action_key (memory w) action) as [[| | | | |f|]|]; try exact Hwarn.
  cbn zeta. destruct (call_function f h1 _) as [h2 next]. simpl.
  unfold bind. unfold setState, emit_change. msimpl.
  set (w1 := log _ _).
  destruct (notify_returns (listeners w) (VRef la) (state w) next w1 Hfun) as [w' E].
  pose proof (notify_served (listeners w) (VRef la) (state w) next w1) as (t & Et & At & _).
  change (listeners w1) with (listeners w).
  change (state (set_memory h2 w)) with (state w).
  rewrite E in Et |- *. simpl in Et.
  eexists _, w', (_ :: t). split_and!; [done| |].
  - rewrite Et. subst w1. simpl. by rewrite <- app_assoc.
  - simpl. by rewrite At.
Qed.

Lemma run_steps_announce `{PureHost} h0 steps w :
  ready w → h0 ⊆ memory w → plain_steps h0 steps → None ∉ steps →
  ∃ w' t, for_each steps run_step w = (Return tt, w') ∧
          trace w' = (trace w ++ t)%list ∧
          length (announcements t) = length steps.
Proof.
  revert w. induction steps as [|[[a c]|] steps IH]; intros w Hw Hm Hp Hn; simpl.
  - exists w, []. by rewrite app_nil_r.
  - destruct (Hp a c ltac:(left)) as [Ha Hk].
    destruct (reducer_step_announces a c w Hw) as (k & w1 & t1 & E & Et & At).
    { by rewrite (action_key_extends h0). }
    pose proof (reducer_step_stable grows a c w) as Hg. rewrite E in Hg.
    destruct (IH w1) as (w2 & t2 & E2 & Et2 & At2).
    { by eapply ready_grows. }
    { etrans; [exact Hm|apply Hg]. }
    { by eapply plain_steps_tail. }
    { intros Hin. apply Hn. by right. }
    exists w2, (t1 ++ t2)%list. split_and!.
    + unfold bind at 1. unfold bind at 1. rewrite E. msimpl. exact E2.
    + by rewrite Et2, Et, app_assoc.
    + rewrite announcements_app, length_app, At, At2. done.
  - exfalso. apply Hn. by left.
Qed.

(** X14: Every dispatch is announced once. On a store with a record as reducer
    table and mappers that are functions, a dispatch that is allowed the
    depth of its chains, of actions whose types are no members of
    [Object.prototype], returns, and the trace it leaves holds as many
    change events and warnings as there are actions in its order: one for
    the action and one for each chained action, at any depth of chaining. *)
Theorem one_announcement_per_dispatch `{PureHost} (w : world) (fuel : nat)
    (action chained : value) :
  ready w →
  (∀ k actions a, chains w !! k = Some actions → a ∈ actions → allocated (memory w) a) →
  allocated (memory w) action →
  let order := dispatch_order fuel (action_key (memory w)) (chains w) action chained in
  (∀ a c, Some (a, c) ∈ order → object_prototype (action_key (memory w) a) = Missing) →
  None ∉ order →
  ∃ w' t, dispatch fuel action chained w = (Return tt, w') ∧
          trace w' = (trace w ++ t)%list ∧
          length (announcements t) = length order.
Proof.
  intros Hw Hreg Ha order Hplain Hcut.
  rewrite (dispatch_in_order (memory w) (chains w) Hreg) by done.
  apply (run_steps_announce (memory w)); [done..| |done].
  intros a c Hin. split; [|by eapply Hplain].
  apply dispatch_order_elem in Hin as [->|(k & actions & Hk & Hin)]; [done|].
  by eapply Hreg.
Qed.

Lemma one_announcement_per_dispatch_witness :
  let w := run_ops (H := Demo.host)
             [OpRegister (VRef 2); OpChain (VString "INC") (VRef 3);
              OpChain (VString "INC") (VRef 6); OpChain (VString "SET") (VRef 3);
              OpSubscribe (VFunction 2) (VFunction 9)] Demo.store in
  ∃ w' t, dispatch (H := Demo.host) 3 (VRef 5) VUndefined w = (Return tt, w') ∧
          trace w' = (trace w ++ t)%list ∧
          length (announcements t) = 4%nat.
Proof.
  intros w.
  assert (chains w = <["INC" := [VRef 3; VRef 6]]> {["SET" := [VRef 3]]}) as Hcw
    by (vm_compute; reflexivity).
  apply (@one_announcement_per_dispatch Demo.host demo_host_pure w 3 (VRef 5) VUndefined).
  - split.
    + eexists _, _. split; vm_compute; reflexivity.
    + intros j sub Hj. vm_compute in Hj.
      apply list_elem_of_singleton in Hj as ->. vm_compute. by intros [= <-].
  - intros k actions a. rewrite Hcw.
    intros [[<- <-]|[_ [<- <-]%lookup_singleton_Some]]%lookup_insert_Some.
    + intros [->|Ha]%elem_of_cons; [eexists; vm_compute; reflexivity|].
      apply list_elem_of_singleton in Ha as ->. eexists; vm_compute; reflexivity.
    + intros ->%list_elem_of_singleton. eexists; vm_compute; reflexivity.
  - eexists; vm_compute; reflexivity.
  - intros a c Hin. vm_compute in Hin. apply list_elem_of_In in Hin. simpl in Hin.
    repeat destruct Hin as [Hin|Hin]; try done; injection Hin as <- <-;
      vm_compute; reflexivity.
  - vm_compute. intros Hin. apply list_elem_of_In in Hin. simpl in Hin.
    repeat destruct Hin as [Hin|Hin]; try discriminate; done.
Defined.

(** ** From [subscribe] to the callback *)

(** X15: A subscription and a dispatch together. On a store made by the
    constructor whose mappers are functions, [subscribe] with a mapper and a
    callback that are functions returns the next index, and the dispatch of an
    action that has a reducer and nothing chained to its type then returns
    with the state the reducer gave; the new subscriber is served after all
    the others, and its callback is called once, with the copy of the action
    and the two values of the mapper, when they differ by [!==], and is not
    called when they do not. *)
Theorem subscribe_then_dispatch `{Host} (h : heap) (s : value) (w0 : world)
    (ops : list op) (m f : fn_id) (cb action chained : value) (fuel : nat) :
  construct h s = Return w0 →
  let w := run_ops ops w0 in
  let i := length (subscribers w) in
  let w1 := set_listeners (listeners w ++ [i])
              (set_subscribers (subscribers w ++ [Subscriber (VFunction m) cb]) w) in
  let k := action_key (memory w) action in
  let act := VRef (alloc (OObject (action_copy (memory w) action chained)) (memory w)).1 in
  let h1 := (alloc (OObject (action_copy (memory w) action chained)) (memory w)).2 in
  let result := call_function f h1 [state w; action_payload (memory w) action] in
  let wc := log (Change act (state w) result.2)
              (set_state result.2 (set_memory result.1 w1)) in
  let wi := (for_each (listeners w) (λ j, run_subscriber j act (state w) result.2) wc).2 in
  let target := (call_function m (memory wi) [result.2]).2 in
  let prevTarget :=
    (call_function m (call_function m (memory wi) [result.2]).1 [state w]).2 in
  isFunc cb = true →
  (∀ j sub, j ∈ listeners w → subscribers w !! j = Some sub →
            isFunc (stateMapper sub) = true) →
  get_property h1 (reducer w) k = Return (VFunction f) →
  chains w !! k = None →
  subscribe (VFunction m) cb w = (Return (VNumber (Int (Z.of_nat i))), w1) ∧
  ∃ w' t,
    dispatch (S fuel) action chained w1 = (Return tt, w') ∧
    state w' = result.2 ∧
    trace w' = (trace w ++ t)%list ∧
    callbacks_of i t =
      if strict_equal target prevTarget then []
      else [Callback i cb act prevTarget target].
Proof.
  intros Hc w i w1 k act h1 result wc wi target prevTarget Hcb Hfun Hf Hk.
  assert (wf_listeners w) as Hwf by (eapply run_ops_wf, construct_wf; done).
  destruct (subscribe_listens (VFunction m) cb w Hcb Hwf) as (w1' & Es & Hi & Hls & Hout).
  assert (w1' = w1) as ->.
  { revert Es. unfold subscribe. rewrite Hcb. msimpl. by intros [= _ <-]. }
  split; [done|].
  destruct (notify_others i (listeners w) act (state w) result.2 wc Hout)
    as (wi' & E1 & F1 & S1 & t1 & T1 & C1).
  { intros j sub Hj Hsub. apply (Hfun j sub Hj).
    destruct Hwf as [_ Hlt]. change (subscribers wc) with (subscribers w1) in Hsub.
    revert Hsub. subst w1. simpl. by rewrite lookup_app_l by by apply Hlt. }
  assert (wi = wi') as Hwi by (subst wi; by rewrite E1).
  clearbody wi. subst wi.
  assert (subscribers wi' !! i = Some (Subscriber (VFunction m) cb)) as Hi'.
  { destruct F1 as (_&_&->&_). exact Hi. }
  pose proof (run_subscriber_eq i m cb act (state w) result.2 wi' Hi') as E2.
  cbn zeta in E2. fold target in E2. fold prevTarget in E2.
  set (w2 := if strict_equal target prevTarget then _ else _) in E2.
  assert (state w2 = result.2 ∧ chains w2 = chains w ∧
          ∃ t2, trace w2 = (trace wi' ++ t2)%list ∧
                callbacks_of i t2 =
                  if strict_equal target prevTarget then []
                  else [Callback i cb act prevTarget target]) as (S2 & Ec2 & t2 & T2 & C2).
  { destruct F1 as (_&Ec&_&_). subst w2.
    destruct (strict_equal target prevTarget); simpl; rewrite S1, Ec; split_and!; try done.
    - exists []. by rewrite app_nil_r.
    - eexists [_]. split; [done|]. simpl. by rewrite bool_decide_true. }
  exists w2, (Change act (state w) result.2 :: t1 ++ t2)%list. split_and!.
  - change (dispatch (S fuel) action chained)
      with (let! key := reducer_step action chained in fan_out fuel key).
    unfold bind at 1.
    rewrite (reducer_step_transition w1 action chained f Hf).
    change (memory w1) with (memory w). change (state w1) with (state w).
    fold k act h1 result. unfold bind at 1.
    assert (setState result.2 act (set_memory result.1 w1) = (Return tt, w2)) as ->.
    { unfold setState, emit_change. msimpl.
      change (state (set_memory result.1 w1)) with (state w). fold wc.
      change (listeners wc) with (listeners w1). rewrite Hls.
      rewrite for_each_app. unfold bind at 1. rewrite E1. cbn [for_each].
      unfold bind at 1. fold i. by rewrite E2. }
    msimpl. unfold fan_out. msimpl. by rewrite Ec2, Hk.
  - done.
  - rewrite T2, T1. subst wc. simpl. by rewrite <- !app_assoc.
  - simpl. by rewrite callbacks_of_app, C1, C2.
Qed.

Lemma subscribe_then_dispatch_witness :
  let w := run_ops (H := Demo.host)
             [OpRegister (VRef 2); OpSubscribe (VFunction 1) (VFunction 8)] Demo.store in
  ∃ w1 w' t,
    subscribe (VFunction 2) (VFunction 9) w = (Return (VNumber (Int 1)), w1) ∧
    dispatch (H := Demo.host) 1 (VRef 5) VUndefined w1 = (Return tt, w') ∧
    trace w' = (trace w ++ t)%list ∧
    callbacks_of 1 t =
      [Callback 1 (VFunction 9) (VRef 9) (VNumber (Int 0)) (VNumber (Int 5))].
Proof.
  intros w.
  destruct (subscribe_then_dispatch (H := Demo.host) Demo.objects (VRef 1) Demo.store
              [OpRegister (VRef 2); OpSubscribe (VFunction 1) (VFunction 8)]
              2 0 (VFunction 9) (VRef 5) VUndefined 0) as (Hs & w' & t & Hd & _ & Ht & Hcb).
  - reflexivity.
  - reflexivity.
  - intros j sub Hj. vm_compute in Hj.
    apply list_elem_of_singleton in Hj as ->. vm_compute. by intros [= <-].
  - vm_compute; reflexivity.
  - vm_compute; reflexivity.
  - eexists _, w', t. split_and!; [exact Hs|exact Hd|exact Ht|].
    etrans; [exact Hcb|]. vm_compute. reflexivity.
Defined.

(** ** The state is the caller's object *)

(** X16: The constructor keeps the initial state by reference, without a copy:
    what the caller writes to that object after the construction is in the
    state of the store, and the next copy that [getState] returns has it. *)
Theorem constructor_keeps_reference (h : heap) (l : loc) (ps : gmap string value)
    (w : world) (k : string) (v : value) :
  h !! l = Some (OObject ps) →
  construct h (VRef l) = Return w →
  state w = VRef l ∧
  let written := set_memory (set_property (memory w) l k v) w in
  ∃ l' w',
    getState written = (Return (VRef l'), w') ∧
    l' ≠ l ∧
    memory w' !! l' = Some (OObject (<[k := v]> ps)).
Proof.
  intros Hl Hc. simpl in Hc. injection Hc as <-. split; [done|]. simpl.
  eexists _, _. split; [apply getState_eq|].
  set (h' := set_property h l k v).
  assert (h' !! l = Some (OObject (<[k := v]> ps))) as Hl'.
  { subst h'. unfold set_property. rewrite Hl. apply lookup_insert_eq. }
  cbn [memory state set_memory own_props]. rewrite Hl'. split.
  - intros E. pose proof (alloc_fresh (OObject (<[k := v]> ps)) h') as Hf.
    rewrite E in Hf. congruence.
  - apply alloc_lookup.
Qed.

Lemma constructor_keeps_reference_witness :
  ∃ l' w',
    getState (set_memory (set_property Demo.objects 1 "count" (VNumber (Int 3))) Demo.store)
      = (Return (VRef l'), w') ∧
    l' ≠ 1%positive ∧
    memory w' !! l' =
      Some (OObject (<["count" := VNumber (Int 3)]> {["count" := VNumber (Int 0)]})).
Proof.
  assert (Demo.objects !! 1%positive = Some (OObject {["count" := VNumber (Int 0)]})) as Hl
    by (vm_compute; reflexivity).
  apply (proj2 (constructor_keeps_reference Demo.objects 1 _ Demo.store "count"
                  (VNumber (Int 3)) Hl eq_refl)).
Defined.

(** ** A chained reducer works on the state its predecessor left *)

Lemma own_table_function h h' lr table k f :
  h !! lr = Some (OObject table) → h ⊆ h' → table !! k = Some (VFunction f) →
  get_property h' (VRef lr) k = Return (VFunction f).
Proof.
  intros Hlr Hsub Hk.
  rewrite (get_property_object h' lr table); [by rewrite Hk|].
  by eapply lookup_weaken.
Qed.

(** The transition step extends the heap and the trace: one change event,
    and after it calls of callbacks only. *)
Lemma setState_transition `{PureHost} next act w :
  (∀ j sub, j ∈ listeners w → subscribers w !! j = Some sub →
            isFunc (stateMapper sub) = true) →
  ∃ w' t, setState next act w = (Return tt, w') ∧
          state w' = next ∧ grows w w' ∧
          trace w' = (trace w ++ Change act (state w) next :: t)%list ∧
          changes t = [].
Proof.
  intros Hfun.
  destruct (setState_returns next act w Hfun) as [w' E].
  destruct (setState_one_change next act w) as (t & Et & Ct & Es).
  pose proof (setState_stable grows next act w) as Hg.
  rewrite E in Et, Es, Hg. by exists w', t.
Qed.

(** X17: The state is threaded through the chain. With [B] chained to the type
    of [A], a reducer [fA] for the type of [A] and a reducer [fB] for the
    type of [B], to which nothing is chained, the dispatch of [A] returns
    after two transitions: [fA] is applied to the state of the store and the
    payload of [A], and [fB] is applied to the result of [fA] and the
    payload of [B]. The state in the end is the result of [fB], the two
    change events carry the states in that order, and the copy of [B] that
    the second one carries has the marker [true]. *)
Theorem chained_reducer_gets_new_state `{PureHost} (w w1 : world)
    (from b action chained : value) (lr : loc) (table : gmap string value)
    (fA fB : fn_id) (fuel : nat) :
  let kA := action_key (memory w) action in
  let kB := action_key (memory w) b in
  reducer w = VRef lr →
  memory w !! lr = Some (OObject table) →
  table !! kA = Some (VFunction fA) →
  table !! kB = Some (VFunction fB) →
  allocated (memory w) action →
  allocated (memory w) b →
  (∀ j sub, j ∈ listeners w → subscribers w !! j = Some sub →
            isFunc (stateMapper sub) = true) →
  to_string from = kA →
  chains w !! kA = None →
  chains w !! kB = None →
  kB ≠ kA →
  chain from b w = (Return tt, w1) →
  let la := (alloc (OObject (action_copy (memory w) action chained)) (memory w)).1 in
  let hA := (alloc (OObject (action_copy (memory w) action chained)) (memory w)).2 in
  let sA := (call_function fA hA [state w; action_payload (memory w) action]).2 in
  let wA := (reducer_step action chained w1).2 in
  let lb := (alloc (OObject (action_copy (memory wA) b (VBool true))) (memory wA)).1 in
  let hB := (alloc (OObject (action_copy (memory wA) b (VBool true))) (memory wA)).2 in
  let sB := (call_function fB hB [sA; action_payload (memory w) b]).2 in
  ∃ w' tA tB,
    dispatch (S (S fuel)) action chained w1 = (Return tt, w') ∧
    state wA = sA ∧
    state w' = sB ∧
    trace w' =
      (trace w ++ Change (VRef la) (state w) sA :: tA ++
       Change (VRef lb) sA sB :: tB)%list ∧
    changes tA = [] ∧ changes tB = [] ∧
    memory w' !! lb =
      Some (OObject (<["@@chained" := VBool true]> (own_props (memory w) b))).
Proof.
  intros kA kB Hr Hlr HfA HfB Ha Hb Hfun Hfrom HcA HcB Hne Hchain la hA sA wA lb hB sB.
  apply chain_returns in Hchain. rewrite Hfrom, HcA in Hchain. simpl in Hchain.
  assert (memory w1 = memory w ∧ state w1 = state w ∧ reducer w1 = reducer w ∧
          listeners w1 = listeners w ∧ subscribers w1 = subscribers w ∧
          trace w1 = trace w ∧ chains w1 = <[kA := [b]]> (chains w))
    as (Hm1 & Hs1 & Hr1 & Hl1 & Hsub1 & Ht1 & Hc1) by (by subst w1).
  clear Hchain.
  (* the step of A *)
  pose proof (reducer_step_transition w1 action chained fA) as EA.
  cbn zeta in EA. rewrite Hm1, Hs1, Hr1, Hr in EA. fold kA la hA in EA.
  specialize (EA (own_table_function _ _ _ _ _ _ Hlr (alloc_extends _ _) HfA)).
  set (rA := call_function fA hA [state w; action_payload (memory w) action]) in *.
  destruct (setState_transition rA.2 (VRef la) (set_memory rA.1 w1))
    as (wA' & tA & EsA & HsA & HgA & HtA & HcgA).
  { simpl. by rewrite Hl1, Hsub1. }
  assert (reducer_step action chained w1 = (Return kA, wA')) as EstepA.
  { rewrite EA. unfold bind. by rewrite EsA. }
  assert (wA = wA') as HwA by (subst wA; by rewrite EstepA).
  clearbody wA. subst wA'.
  assert (grows w1 wA) as [(HrA & HchA & HsubA & HlA) HmA].
  { pose proof (reducer_step_stable grows action chained w1) as Hg.
    by rewrite EstepA in Hg. }
  assert (memory w ⊆ memory wA) as HmwA by (by rewrite <- Hm1).
  (* the step of B *)
  pose proof (reducer_step_transition wA b (VBool true) fB) as EB.
  cbn zeta in EB. fold lb hB in EB.
  rewrite (action_key_extends (memory w)) in EB by done. fold kB in EB.
  assert (action_payload (memory wA) b = action_payload (memory w) b) as Hpb.
  { unfold action_payload. by rewrite (own_props_extends (memory w)). }
  rewrite Hpb, HsA, HrA, Hr1, Hr in EB. fold sB in EB.
  assert (hB !! lr = Some (OObject table)) as HlrB.
  { eapply lookup_weaken; [exact Hlr|]. etrans; [exact HmwA|apply alloc_extends]. }
  specialize (EB (own_table_function _ _ _ _ _ _ HlrB (reflexivity _) HfB)).
  set (rB := call_function fB hB [sA; action_payload (memory w) b]) in *.
  destruct (setState_transition rB.2 (VRef lb) (set_memory rB.1 wA))
    as (wB & tB & EsB & HsB & HgB & HtB & HcgB).
  { simpl. by rewrite HlA, HsubA, Hl1, Hsub1. }
  assert (reducer_step b (VBool true) wA = (Return kB, wB)) as EstepB.
  { rewrite EB. unfold bind. fold sA. fold rB. by rewrite EsB. }
  destruct HgB as [(HrB & HchB & _ & _) HmB]. simpl in HchB, HmB.
  exists wB, tA, tB. split_and!; try done.
  - change (dispatch (S (S fuel)) action chained)
      with (let! key := reducer_step action chained in fan_out (S fuel) key).
    unfold bind at 1. rewrite EstepA. unfold fan_out. msimpl.
    rewrite HchA, Hc1, lookup_insert_eq. cbn [for_each].
    change (dispatch (S fuel) b (VBool true))
      with (let! key := reducer_step b (VBool true) in fan_out fuel key).
    unfold bind at 1 2. rewrite EstepB. unfold fan_out. msimpl.
    by rewrite HchB, HchA, Hc1, lookup_insert_ne, HcB.
  - rewrite HtB. simpl. rewrite HtA. simpl. rewrite Ht1, HsA, Hs1.
    by rewrite <- app_assoc.
  - eapply lookup_weaken; [|exact HmB].
    eapply lookup_weaken; [|apply call_extends].
    subst lb. rewrite alloc_lookup. unfold action_copy.
    by rewrite (own_props_extends (memory w)).
Qed.

Lemma chained_reducer_gets_new_state_witness :
  let w := run_ops (H := Demo.host)
             [OpRegister (VRef 2); OpSubscribe (VFunction 2) (VFunction 9)] Demo.store in
  let w1 := run_ops (H := Demo.host) [OpChain (VString "INC") (VRef 6)] w in
  ∃ w', dispatch (H := Demo.host) 2 (VRef 5) VUndefined w1 = (Return tt, w') ∧
        state w' = VNumber (Int 7).
Proof.
  intros w w1.
  assert (memory w !! 2%positive =
          Some (OObject (<["INC" := VFunction 0]> {["SET" := VFunction 3]}))) as Hlr
    by (vm_compute; reflexivity).
  destruct (@chained_reducer_gets_new_state Demo.host demo_host_pure w w1
              (VString "INC") (VRef 6) (VRef 5) VUndefined 2 _ 0 3 0 eq_refl Hlr)
    as (w' & tA & tB & Hd & _ & Hs & _).
  - vm_compute; reflexivity.
  - vm_compute; reflexivity.
  - eexists; vm_compute; reflexivity.
  - eexists; vm_compute; reflexivity.
  - intros j sub Hj. vm_compute in Hj.
    apply list_elem_of_singleton in Hj as ->. vm_compute. by intros [= <-].
  - vm_compute; reflexivity.
  - vm_compute; reflexivity.
  - vm_compute; reflexivity.
  - vm_compute. discriminate.
  - vm_compute; reflexivity.
  - exists w'. split; [exact Hd|]. rewrite Hs. vm_compute. reflexivity.
Defined.

(** ** The order of a dispatch with chains *)

(** X18: [chain], when it returns, has put the action after the ones already
    chained to the key. On the store it leaves, [dispatch] runs the reducer
    steps of the actions in the order of [dispatch_order], one after the
    other on the same store: the action first, then the chained actions in
    the order of registration, with [chained] set to [true], each followed
    by the actions chained to it. When the chained actions have nothing
    chained to them, that order is the action followed by the chained
    actions. When the types of the chained actions go down in some rank,
    depth above the rank of the action is enough: on a store with a record
    as reducer table and mappers that are functions, and for types that are
    no members of [Object.prototype], [dispatch] returns, having run every
    step of the order. *)
Theorem chained_actions_in_order `{PureHost} (w w1 : world)
    (from b action chained : value) (fuel : nat) :
  (∀ k actions a, chains w !! k = Some actions → a ∈ actions → allocated (memory w) a) →
  allocated (memory w) b →
  allocated (memory w) action →
  chain from b w = (Return tt, w1) →
  let key := to_string from in
  let key_of := action_key (memory w) in
  let chained_to_key := (default [] (chains w !! key) ++ [b])%list in
  let order := dispatch_order fuel key_of (chains w1) action chained in
  chains w1 !! key = Some chained_to_key ∧
  dispatch fuel action chained w1 = for_each order run_step w1 ∧
  (key_of action = key →
   (∀ a, a ∈ chained_to_key → chains w1 !! key_of a = None) →
   (2 ≤ fuel)%nat →
   order = Some (action, chained) :: ((λ a, Some (a, VBool true)) <$> chained_to_key)) ∧
  (∀ rank : string → nat,
     (∀ k actions a, chains w1 !! k = Some actions → a ∈ actions →
                     (rank (key_of a) < rank k)%nat) →
     (rank (key_of action) < fuel)%nat →
     ready w1 →
     (∀ a c, Some (a, c) ∈ order → object_prototype (key_of a) = Missing) →
     (dispatch fuel action chained w1).1 = Return tt).
Proof.
  intros Hreg Hb Ha Hchain key key_of chained_to_key order.
  apply chain_returns in Hchain.
  assert (chains w1 = <[key := chained_to_key]> (chains w) ∧ memory w1 = memory w)
    as [Hc1 Hm1] by (by subst w1).
  clear Hchain.
  assert (∀ k actions a, chains w1 !! k = Some actions → a ∈ actions →
                         allocated (memory w) a) as Hreg1.
  { intros k actions a. rewrite Hc1.
    destruct (decide (k = key)) as [->|Hne].
    - rewrite lookup_insert_eq. intros [= <-]. subst chained_to_key.
      intros [Hin|Hin]%elem_of_app.
      + destruct (chains w !! key) as [old|] eqn:Eold; simpl in Hin.
        * by eapply Hreg.
        * by apply elem_of_nil in Hin.
      + by apply list_elem_of_singleton in Hin as ->.
    - rewrite lookup_insert_ne by done. apply Hreg. }
  assert (dispatch fuel action chained w1 = for_each order run_step w1) as Hrun.
  { apply (dispatch_in_order (memory w) (chains w1) Hreg1); [done| |done].
    by rewrite Hm1. }
  split_and!.
  - by rewrite Hc1, lookup_insert_eq.
  - exact Hrun.
  - intros Hk Hleaf Hfuel. destruct fuel as [|[|fuel]]; [lia..|].
    subst order. apply dispatch_order_one_level; [|done].
    by rewrite Hk, Hc1, lookup_insert_eq.
  - intros rank Hrank Hlt Hready Hplain. rewrite Hrun.
    pose proof (dispatch_order_enough rank fuel key_of (chains w1) action chained
                  Hrank Hlt) as Hcut.
    destruct (run_steps_return (memory w) order w1 Hready) as [w' ->]; try done.
    + by rewrite Hm1.
    + intros a c Hin. split; [|by eapply Hplain].
      apply dispatch_order_elem in Hin as [->|(k & actions & Hk & Hin)]; [done|].
      by eapply Hreg1.
Qed.

Lemma chained_actions_in_order_witness :
  let w := run_ops (H := Demo.host)
             [OpRegister (VRef 2); OpChain (VString "INC") (VRef 3);
              OpSubscribe (VFunction 2) (VFunction 9)] Demo.store in
  let w1 := (chain (H := Demo.host) (VString "INC") (VRef 6) w).2 in
  chains w1 !! "INC" = Some [VRef 3; VRef 6] ∧
  dispatch (H := Demo.host) 2 (VRef 5) VUndefined w1 =
    for_each [Some (VRef 5, VUndefined); Some (VRef 3, VBool true); Some (VRef 6, VBool true)]
      (run_step (H := Demo.host)) w1 ∧
  (dispatch (H := Demo.host) 2 (VRef 5) VUndefined w1).1 = Return tt.
Proof.
  intros w w1.
  assert (chains w = {["INC" := [VRef 3]]}) as Hcw by (vm_compute; reflexivity).
  assert (chains w1 = {["INC" := [VRef 3; VRef 6]]}) as Hcw1 by (vm_compute; reflexivity).
  destruct (@chained_actions_in_order Demo.host demo_host_pure
              w w1 (VString "INC") (VRef 6) (VRef 5) VUndefined 2)
    as (Hc & Hrun & Hord & Hfuel).
  - intros k actions a. rewrite Hcw. intros [<- <-]%lookup_singleton_Some.
    intros ->%list_elem_of_singleton. eexists. vm_compute. reflexivity.
  - eexists. vm_compute. reflexivity.
  - eexists. vm_compute. reflexivity.
  - vm_compute; reflexivity.
  - assert (dispatch_order 2 (action_key (H := Demo.host) (memory w)) (chains w1)
              (VRef 5) VUndefined =
            [Some (VRef 5, VUndefined); Some (VRef 3, VBool true); Some (VRef 6, VBool true)])
      as Horder.
    { apply Hord; [vm_compute; reflexivity| |lia].
      intros a Ha. rewrite Hcw1.
      change (a ∈ [VRef 3; VRef 6]) in Ha.
      apply elem_of_cons in Ha as [->|Ha]; [vm_compute; reflexivity|].
      apply list_elem_of_singleton in Ha as ->. vm_compute; reflexivity. }
    split_and!.
    + exact Hc.
    + by rewrite Horder in Hrun.
    + apply (Hfuel (λ k, if String.eqb k "INC" then 1%nat else 0%nat)).
      * intros k actions a. rewrite Hcw1.
        intros [<- <-]%lookup_singleton_Some.
        intros [->|Ha]%elem_of_cons; [vm_compute; lia|].
        apply list_elem_of_singleton in Ha as ->. vm_compute; lia.
      * vm_compute; lia.
      * split.
        -- eexists _, _. split; vm_compute; reflexivity.
        -- intros j sub Hj. vm_compute in Hj.
           apply list_elem_of_singleton in Hj as ->. vm_compute. by intros [= <-].
      * intros a c. rewrite Horder. intros Hin.
        apply list_elem_of_In in Hin. simpl in Hin.
        repeat destruct Hin as [Hin|Hin];
          first [injection Hin as <- <-; vm_compute; reflexivity|destruct Hin].
Defined.

(** ** What the reducer table inherits *)

Lemma setState_announced `{Host} next act w :
  state (setState next act w).2 = next ∧
  ∃ t, trace (setState next act w).2 = (trace w ++ Change act (state w) next :: t)%list ∧
       announcements t = [].
Proof.
  split; [apply setState_state|].
  destruct (notify_served (listeners w) act (state w) next
              (log (Change act (state w) next) (set_state next w))) as (t & Et & At & _).
  exists t. split; [|done].
  unfold setState, emit_change. msimpl.
  change (listeners (log _ (set_state next w))) with (listeners w).
  rewrite Et. simpl. by rewrite <- app_assoc.
Qed.

(** The reducer step for a type that the table, a record, has no property
    of its own for: what [Object.prototype] has under the type is what the
    step finds. *)
Lemma reducer_step_inherited `{Host} w action chained lr table :
  let k := action_key (memory w) action in
  let act := VRef (alloc (OObject (action_copy (memory w) action chained)) (memory w)).1 in
  let h1 := (alloc (OObject (action_copy (memory w) action chained)) (memory w)).2 in
  reducer w = VRef lr →
  memory w !! lr = Some (OObject table) →
  table !! k = None →
  reducer_step action chained w =
    if is_function (object_prototype k) then
      (let! next := call_member (VRef lr) (object_prototype k)
                      [state w; action_payload (memory w) action] in
       setState next act ;;; ret k) (set_memory h1 w)
    else
      (Return k, log (Warn ("'" ++ k ++ "' action is not registered in reducer."))
                   (set_memory h1 w)).
Proof.
  intros k act h1 Hr Hlr Hk.
  assert (h1 !! lr = Some (OObject table)) as Hlr1.
  { eapply lookup_weaken; [exact Hlr|apply alloc_extends]. }
  rewrite reducer_step_eq.
  rewrite (apply_reducer_eq _ (action_copy (memory w) action chained));
    [|apply alloc_lookup].
  rewrite action_copy_type, action_copy_payload.
  fold (action_key (memory w) action). fold k. cbn zeta.
  change (reducer (set_memory _ w)) with (reducer w). rewrite Hr.
  change (memory (set_memory _ w)) with h1.
  cbn [lookup_member]. rewrite Hlr1, Hk. done.
Qed.

(** X19: The reducer of a type is read through the prototype of the table. When
    the table, a record, has no property of its own under the type of the
    action, a function that it inherits from [Object.prototype] under that
    name is applied as the reducer, with the table as [this], and no warning
    is given: for the type [toString] the state becomes the string
    ['[object Object]'], for [valueOf] the table itself, for
    [hasOwnProperty] the boolean that tells whether the table has a property
    named by the state, for [isPrototypeOf] the boolean [false]. For the type
    [__defineGetter__] and a payload that is not a function the dispatch
    throws a type error. For the type [__proto__] the table has its
    prototype, which is no function, and the warning is given. *)
Theorem inherited_members_are_reducers `{Host} (w : world) (action chained : value)
    (lr : loc) (table : gmap string value) :
  reducer w = VRef lr →
  memory w !! lr = Some (OObject table) →
  let k := action_key (memory w) action in
  let act := VRef (alloc (OObject (action_copy (memory w) action chained)) (memory w)).1 in
  let h1 := (alloc (OObject (action_copy (memory w) action chained)) (memory w)).2 in
  let w1 := (reducer_step action chained w).2 in
  let commits (next : value) :=
    state w1 = next ∧
    ∃ t, trace w1 = (trace w ++ Change act (state w) next :: t)%list ∧
         announcements t = [] in
  table !! k = None →
  (k = "toString" → commits (VString "[object Object]")) ∧
  (k = "valueOf" → commits (VRef lr)) ∧
  (k = "hasOwnProperty" →
   commits (VBool (bool_decide (is_Some (table !! to_string (state w)))))) ∧
  (k = "isPrototypeOf" → commits (VBool false)) ∧
  (k = "__defineGetter__" → isFunc (action_payload (memory w) action) = false →
   reducer_step action chained w =
     (Throw (TypeError "Object.prototype.__defineGetter__: Expecting function"),
      set_memory h1 w)) ∧
  (k = "__proto__" →
   reducer_step action chained w =
     (Return k, log (Warn "'__proto__' action is not registered in reducer.")
                  (set_memory h1 w))).
Proof.
  intros Hr Hlr k act h1 w1 commits Hk.
  pose proof (reducer_step_inherited w action chained lr table Hr Hlr Hk) as E.
  cbn zeta in E. fold k act h1 in E.
  assert (h1 !! lr = Some (OObject table)) as Hlr1.
  { eapply lookup_weaken; [exact Hlr|apply alloc_extends]. }
  assert (∀ next,
            reducer_step action chained w =
              (setState next act ;;; ret k) (set_memory h1 w) →
            commits next) as Hcommit.
  { intros next E'. subst commits w1. cbn beta. rewrite E'.
    destruct (setState_announced next act (set_memory h1 w)) as (Hs & t & Ht & At).
    unfold bind.
    destruct (setState next act (set_memory h1 w)) as [[[]|e|] w2];
      simpl in *; split; try done; by exists t. }
  split_and!.
  - intros Ek. apply Hcommit. rewrite E, Ek. reflexivity.
  - intros Ek. apply Hcommit. rewrite E, Ek. reflexivity.
  - intros Ek. apply Hcommit. rewrite E, Ek.
    change (object_prototype "hasOwnProperty") with (Inherited HasOwnProperty).
    cbn [is_function call_member call_builtin].
    change ([state w; action_payload (memory w) action] !! 0%nat) with (Some (state w)).
    cbn [default from_option id]. unfold bind at 1 2, gets.
    cbn [memory set_memory own_props]. fold h1. by rewrite Hlr1.
  - intros Ek. apply Hcommit. rewrite E, Ek. reflexivity.
  - intros Ek Hp. rewrite E, Ek.
    change (object_prototype "__defineGetter__") with (Inherited DefineGetter).
    cbn [is_function call_member call_builtin].
    change ([state w; action_payload (memory w) action] !! 1%nat)
      with (Some (action_payload (memory w) action)).
    cbn [default from_option id]. by rewrite Hp.
  - intros Ek. rewrite E, Ek. reflexivity.
Qed.

Lemma inherited_members_are_reducers_witness :
  let to_string_action := OObject {["type" := VString "toString"]} in
  let get_action := OObject {["type" := VString "__defineGetter__"]} in
  let h := <[10%positive := get_action]> (<[9%positive := to_string_action]> Demo.objects) in
  let w := World h (VRef 1) (VRef 2) ∅ [] [] [] in
  state (reducer_step (H := Demo.host) (VRef 9) VUndefined w).2 = VString "[object Object]" ∧
  (reducer_step (H := Demo.host) (VRef 10) VUndefined w).1 =
    Throw (TypeError "Object.prototype.__defineGetter__: Expecting function").
Proof.
  intros to_string_action get_action h w.
  assert (memory w !! 2%positive =
          Some (OObject (<["INC" := VFunction 0]> {["SET" := VFunction 3]}))) as Hlr
    by (vm_compute; reflexivity).
  split.
  - destruct (inherited_members_are_reducers (H := Demo.host) w (VRef 9) VUndefined 2 _
                eq_refl Hlr) as (Hs & _); [vm_compute; reflexivity|].
    apply Hs. vm_compute; reflexivity.
  - destruct (inherited_members_are_reducers (H := Demo.host) w (VRef 10) VUndefined 2 _
                eq_refl Hlr) as (_ & _ & _ & _ & Hg & _); [vm_compute; reflexivity|].
    rewrite Hg; [reflexivity|vm_compute; reflexivity..].
Defined.

(** ** A chain under a name of [Object.prototype] *)

Lemma object_prototype_not_own k v : object_prototype k ≠ Own v.
Proof.
  unfold object_prototype.
  destruct (list_to_map prototype_members !! k) as [m|] eqn:E; [|done]. simpl.
  apply elem_of_list_to_map_2 in E. unfold prototype_members in E.
  repeat (apply elem_of_cons in E as [[= -> ->]|E]; [done|]).
  by apply elem_of_nil in E.
Qed.

Lemma chain_inherited `{Host} from action w :
  chains w !! to_string from = None →
  object_prototype (to_string from) ≠ Missing →
  chain from action w =
    (Throw (TypeError "this.chains[from].push is not a function"), w).
Proof.
  intros Hc Hk. unfold chain. msimpl. rewrite Hc.
  pose proof (object_prototype_not_own (to_string from)) as Hown.
  destruct (object_prototype (to_string from)) as [v| | |]; try done.
  by destruct (Hown v).
Qed.

Lemma run_op_own_chains `{Host} o w : own_chains w → own_chains (run_op o w).
Proof.
  intros Hw. destruct o as [|r|fuel a c|from a|mapper cb|index]; simpl.
  - done.
  - unfold register. by destruct (isObj r).
  - destruct (dispatch_stable frame fuel a c w) as (_&Ec&_).
    unfold own_chains. by rewrite Ec.
  - destruct (object_prototype (to_string from)) as [v| | |] eqn:Ek;
      [by destruct (object_prototype_not_own (to_string from) v)| | |].
    + destruct (chains w !! to_string from) as [old|] eqn:Ec.
      * by rewrite (Hw _ ltac:(by eexists)) in Ek.
      * rewrite chain_inherited; [done..|by rewrite Ek].
    + destruct (chains w !! to_string from) as [old|] eqn:Ec.
      * by rewrite (Hw _ ltac:(by eexists)) in Ek.
      * rewrite chain_inherited; [done..|by rewrite Ek].
    + rewrite chain_plain by done. intros k. simpl.
      destruct (decide (k = to_string from)) as [->|Hne]; [done|].
      rewrite lookup_insert_ne by done. apply Hw.
  - unfold subscribe. by destruct (isFunc cb).
  - unfold unsubscribe. destruct (isNumber index); [|done]. simpl.
    cbn [bind gets]. by destruct (array_index (subscribers w) index).
Qed.

Lemma run_ops_own_chains `{Host} ops w : own_chains w → own_chains (run_ops ops w).
Proof.
  revert w. induction ops as [|o ops IH]; intros w Hw; simpl; [done|].
  by apply IH, run_op_own_chains.
Qed.

(** X20: The chain registry is read through its prototype. On a store made by
    the constructor, [chain] under a key that names a member of
    [Object.prototype] throws a type error and chains nothing: the registry
    never has actions under such a key, and the dispatch of an action of
    such a type ends with its reducer step. *)
Theorem chain_under_inherited_key `{Host} (h : heap) (s from action : value)
    (w0 : world) (ops : list op) :
  construct h s = Return w0 →
  let w := run_ops ops w0 in
  object_prototype (to_string from) ≠ Missing →
  chain from action w =
    (Throw (TypeError "this.chains[from].push is not a function"), w) ∧
  chains w !! to_string from = None ∧
  ∀ fuel a chained,
    action_key (memory w) a = to_string from →
    (dispatch (S fuel) a chained w).2 = (reducer_step a chained w).2.
Proof.
  intros Hc w Hk.
  assert (own_chains w) as Hw.
  { apply run_ops_own_chains. intros k [old Hold]. revert Hold.
    unfold construct in Hc. destruct s; simpl in Hc; try done; by injection Hc as <-. }
  assert (chains w !! to_string from = None) as Hnone.
  { destruct (chains w !! to_string from) as [old|] eqn:E; [|done].
    destruct Hk. apply Hw. by eexists. }
  split_and!.
  - by apply chain_inherited.
  - done.
  - intros fuel a chained Ha. apply dispatch_no_chain. by rewrite Ha.
Qed.

Lemma chain_under_inherited_key_witness :
  let w := run_ops (H := Demo.host)
             [OpRegister (VRef 2); OpChain (VString "toString") (VRef 6);
              OpChain (VString "INC") (VRef 6)] Demo.store in
  chain (H := Demo.host) (VString "toString") (VRef 3) w =
    (Throw (TypeError "this.chains[from].push is not a function"), w) ∧
  chains w !! "toString" = None.
Proof.
  intros w.
  destruct (chain_under_inherited_key (H := Demo.host) Demo.objects (VRef 1)
              (VString "toString") (VRef 3) Demo.store
              [OpRegister (VRef 2); OpChain (VString "toString") (VRef 6);
               OpChain (VString "INC") (VRef 6)] eq_refl) as (Ht & Hn & _).
  - vm_compute. discriminate.
  - split; [exact Ht|exact Hn].
Defined.
